(** * pr-risk-bot: the risk-scoring engine of [app/risk.py]

    A shallow embedding of [compute_risk] and its helpers
    ([_ext], [_top_level_dir], [_compute_confidence], [_pick_risk_drivers],
    [_review_focus_from_facts], [_operational_notes]) together with the
    properties of the engine that the specification states, followed by
    [load_settings] of [app/config.py] and the paging loop of
    [list_pr_files] of [app/github.py].

    Modelling conventions.
    - Python [int] is [Z]; every counter of the engine is a [Z].
    - Python [str] is [string]; the embedding covers text over the 7-bit
      ASCII alphabet, on which [str.lower], the classes [\w], [\s] and the
      flag [(?i)] are the functions of [Text] below.
    - A dictionary entry read with [d.get(k)] is a [field]: the key is
      absent, holds [None] (JSON null), or holds a value.
    - [set] is stdpp's [gset]; [collections.Counter] is an association list
      in first-insertion order, since [most_common] breaks ties by it.
    - On lists, [NoDup], membership and inclusion are stdpp's. *)

From Stdlib Require Import ZArith String Ascii List Bool Lia DecimalString.
From Stdlib Require Import Permutation Sorted.
From stdpp Require Import gmap strings list.

Open Scope string_scope.
Open Scope list_scope.
Open Scope Z_scope.

(** ** Text: the fragment of Python's [str] the engine uses *)

Module Text.

Definition code (c : ascii) : N := N_of_ascii c.

Definition is_upper (c : ascii) : bool := ((65 <=? code c) && (code c <=? 90))%N.
Definition is_lower (c : ascii) : bool := ((97 <=? code c) && (code c <=? 122))%N.
Definition is_digit (c : ascii) : bool := ((48 <=? code c) && (code c <=? 57))%N.

(** The class [[A-Za-z0-9]]. *)
Definition is_alnum (c : ascii) : bool := is_upper c || is_lower c || is_digit c.

(** The class [\w]: alphanumerics and the underscore. *)
Definition is_word (c : ascii) : bool := is_alnum c || (code c =? 95)%N.

(** The class [\s]: tab, line feed, vertical tab, form feed, carriage
    return, the four separators 0x1C..0x1F and the space. *)
Definition is_space (c : ascii) : bool :=
  (((9 <=? code c) && (code c <=? 13)) || ((28 <=? code c) && (code c <=? 32)))%N.

Definition lower_char (c : ascii) : ascii :=
  if is_upper c then ascii_of_N (code c + 32) else c.

(** [s.lower()] *)
Fixpoint lower (s : string) : string :=
  match s with
  | EmptyString => EmptyString
  | String c t => String (lower_char c) (lower t)
  end.

(** [needle in hay] *)
Fixpoint contains (needle hay : string) : bool :=
  String.prefix needle hay ||
  match hay with
  | EmptyString => false
  | String _ t => contains needle t
  end.

(** [s.split(sep)] for a one-character separator. *)
Fixpoint split (sep : ascii) (s : string) : list string :=
  match s with
  | EmptyString => [EmptyString]
  | String c t =>
      if Ascii.eqb c sep then EmptyString :: split sep t
      else match split sep t with
           | h :: r => String c h :: r
           | [] => [String c EmptyString]
           end
  end.

Fixpoint lstrip (ch : ascii) (s : string) : string :=
  match s with
  | EmptyString => EmptyString
  | String c t => if Ascii.eqb c ch then lstrip ch t else s
  end.

Fixpoint rstrip (ch : ascii) (s : string) : string :=
  match s with
  | EmptyString => EmptyString
  | String c t =>
      let t' := rstrip ch t in
      if Ascii.eqb c ch && String.eqb t' EmptyString then EmptyString
      else String c t'
  end.

(** [s.strip(ch)] for a one-character set. *)
Definition strip (ch : ascii) (s : string) : string := rstrip ch (lstrip ch s).

(** [str(n)], as an f-string renders an [int]. *)
Definition of_int (n : Z) : string := NilEmpty.string_of_int (Z.to_int n).

(** An f-string, as the concatenation of its pieces. *)
Definition fmt (parts : list string) : string := String.concat EmptyString parts.

(** [sep.join(parts)] *)
Definition join (sep : string) (parts : list string) : string :=
  String.concat sep parts.

End Text.

(** ** Regex: the fragment of [re] the engine's patterns are written in

    Every pattern passed to [re.search] carries the flag [(?i)], so a
    literal character is compared up to case.  The engine uses only the
    truth value of [re.search], so the matcher answers whether some match
    exists; which one a backtracking matcher finds first is immaterial. *)

Module Regex.
Import Text.

Inductive re : Type :=
| Eps                                (* the empty pattern *)
| Chr (c : ascii)                    (* a literal character under (?i) *)
| Class (p : ascii -> bool)          (* one character of a class *)
| Star (p : ascii -> bool)           (* class* *)
| Seq (r1 r2 : re)
| Alt (r1 r2 : re)
| WordB.                             (* \b *)

(** A literal word, character by character. *)
Fixpoint lit (s : string) : re :=
  match s with
  | EmptyString => Eps
  | String c t => Seq (Chr c) (lit t)
  end.

(** [r1|r2|...] *)
Fixpoint alts (rs : list re) : re :=
  match rs with
  | [] => Class (fun _ => false)
  | [r] => r
  | r :: rest => Alt r (alts rest)
  end.

Definition word_before (prev : option ascii) : bool :=
  match prev with Some c => is_word c | None => false end.

Definition word_after (s : string) : bool :=
  match s with String c _ => is_word c | EmptyString => false end.

(** [match_re r prev s k]: [r] matches a prefix of [s], whose preceding
    character is [prev], and the continuation [k] accepts what is left. *)
Fixpoint match_re (r : re) (prev : option ascii) (s : string)
         (k : option ascii -> string -> bool) {struct r} : bool :=
  match r with
  | Eps => k prev s
  | Chr c =>
      match s with
      | String x t =>
          if Ascii.eqb (lower_char x) (lower_char c) then k (Some x) t else false
      | EmptyString => false
      end
  | Class p =>
      match s with
      | String x t => if p x then k (Some x) t else false
      | EmptyString => false
      end
  | Star p =>
      (fix loop (prev : option ascii) (s : string) {struct s} : bool :=
         k prev s ||
         match s with
         | String x t => p x && loop (Some x) t
         | EmptyString => false
         end) prev s
  | Seq r1 r2 => match_re r1 prev s (fun prev' s' => match_re r2 prev' s' k)
  | Alt r1 r2 => match_re r1 prev s k || match_re r2 prev s k
  | WordB => xorb (word_before prev) (word_after s) && k prev s
  end.

Fixpoint search_from (r : re) (prev : option ascii) (s : string) : bool :=
  match_re r prev s (fun _ _ => true) ||
  match s with
  | EmptyString => false
  | String c t => search_from r (Some c) t
  end.

(** The truth value of [re.search(r, s)]. *)
Definition search (r : re) (s : string) : bool := search_from r None s.

End Regex.

(** ** Python containers and built-ins used by the engine *)

Module Py.

(** An entry of a dictionary as [d.get(k)] sees it. *)
Inductive field (A : Type) : Type :=
| Absent              (* the key is not in the dictionary *)
| Null                (* the key holds [None] *)
| Present (a : A).    (* the key holds a value *)
Arguments Absent {A}.
Arguments Null {A}.
Arguments Present {A} a.

(** [d.get(k, default)]; the result [None] is Python's [None]. *)
Definition get {A : Type} (f : field A) (default : option A) : option A :=
  match f with
  | Absent => default
  | Null => None
  | Present a => Some a
  end.

(** [x or d] on integers: [None] and [0] are falsy. *)
Definition or_int (x : option Z) (d : Z) : Z :=
  match x with
  | Some n => if n =? 0 then d else n
  | None => d
  end.

(** [x or d] on strings: [None] and the empty string are falsy. *)
Definition or_str (x : option string) (d : string) : string :=
  match x with
  | Some s => if String.eqb s EmptyString then d else s
  | None => d
  end.

(** [len(l)] *)
Definition len {A : Type} (l : list A) : Z := Z.of_nat (length l).

(** [sorted(l, key=key, reverse=True)]: the sort is stable, and with
    [reverse=True] elements of equal key still keep their original order. *)
Fixpoint insert_desc {A : Type} (key : A -> Z) (x : A) (l : list A) : list A :=
  match l with
  | [] => [x]
  | y :: t => if key x <? key y then y :: insert_desc key x t else x :: y :: t
  end.

Fixpoint sorted_desc {A : Type} (key : A -> Z) (l : list A) : list A :=
  match l with
  | [] => []
  | x :: t => insert_desc key x (sorted_desc key t)
  end.

(** [collections.Counter] over strings, in first-insertion order. *)
Definition Counter : Type := list (string * Z).

(** [c[k] += 1] *)
Fixpoint incr (k : string) (c : Counter) : Counter :=
  match c with
  | [] => [(k, 1)]
  | (k', n) :: rest =>
      if String.eqb k k' then (k', n + 1) :: rest else (k', n) :: incr k rest
  end.

(** [c.most_common(n)]: the [n] largest counts, ties in insertion order. *)
Definition most_common (n : nat) (c : Counter) : list (string * Z) :=
  take n (sorted_desc snd c).

End Py.

(** ** The engine *)

Import Text Regex Py.

(** [(?i)\bword\b] *)
Definition whole_word (w : string) : re := Seq WordB (Seq (lit w) WordB).

Definition RISKY_PATH_PATTERNS : list re :=
  [ whole_word "auth"; whole_word "security"; whole_word "payment";
    whole_word "billing"; whole_word "crypto"; whole_word "permission";
    whole_word "admin" ].

Definition CODE_EXTS : gset string :=
  {[ ".py"; ".js"; ".ts"; ".java"; ".kt"; ".cs"; ".go"; ".rb"; ".php" ]}.

Definition CONFIG_EXTS : gset string :=
  {[ ".yml"; ".yaml"; ".json"; ".toml"; ".properties"; ".ini" ]}.

Definition MIGRATION_HINTS : list string :=
  [ "migrations"; "flyway"; "liquibase"; "alembic"; "schema.sql" ].

Definition API_CONTRACT_HINTS : list string :=
  [ "openapi"; "swagger"; "proto"; "graphql"; "schema.graphql" ].

(** [\s+] and [\s*] *)
Definition spaces1 : re := Seq (Class is_space) (Star is_space).
Definition spaces0 : re := Star is_space.

(** [(?i)\b(timeout|retry|backoff|circuit|rate\s*limit)\b] *)
Definition RESILIENCE_RE : re :=
  Seq WordB
    (Seq (alts [ lit "timeout"; lit "retry"; lit "backoff"; lit "circuit";
                 Seq (lit "rate") (Seq spaces0 (lit "limit")) ])
         WordB).

(** The pattern [(?i)\b( permitAll | csrf\(\)\.disable | allowedOrigins | \* )\b],
    written in the source without the blanks. *)
Definition SECURITY_RE : re :=
  Seq WordB
    (Seq (alts [ lit "permitAll"; lit "csrf().disable"; lit "allowedOrigins";
                 lit "*" ])
         WordB).

(** [(?i)\b(drop\s+table|truncate|delete\s+from|alter\s+table)\b] *)
Definition SQL_RE : re :=
  Seq WordB
    (Seq (alts [ Seq (lit "drop") (Seq spaces1 (lit "table"));
                 lit "truncate";
                 Seq (lit "delete") (Seq spaces1 (lit "from"));
                 Seq (lit "alter") (Seq spaces1 (lit "table")) ])
         WordB).

Inductive Level : Type := LOW | MEDIUM | HIGH.
Inductive Confidence : Type := High | Medium | Low.

(** The strings the source stores in [level] and [confidence]. *)
Definition level_str (l : Level) : string :=
  match l with LOW => "LOW" | MEDIUM => "MEDIUM" | HIGH => "HIGH" end.

Definition confidence_str (c : Confidence) : string :=
  match c with High => "High" | Medium => "Medium" | Low => "Low" end.

Record RiskResult : Type := mkRiskResult {
  score_100 : Z;
  score_10 : Z;
  level : Level;
  confidence : Confidence;
  signals : list string;
  impact_map : list string;
  risk_drivers : list string;
  review_focus : list string;
  operational_notes : list string;
  file_summary : string;
  changed_files : Z;
  additions : Z;
  deletions : Z;
  config_files : Z;
  sql_files : Z;
  test_touched : Z;
  risky_paths : Z
}.

(** One element of [files]: the keys [compute_risk] reads. *)
Record ChangedFile : Type := mkFile {
  f_filename : field string;
  f_status : field string;
  f_additions : field Z;
  f_deletions : field Z;
  f_patch : field string
}.

(** The dictionary [pr]: the keys [compute_risk] reads. *)
Record ChangeMeta : Type := mkMeta {
  pr_additions : field Z;
  pr_deletions : field Z;
  pr_changed_files : field Z
}.

(** The run [[A-Za-z0-9]+] that reaches the end of the text, where [$]
    also matches just before a final line feed. *)
Fixpoint alnum_to_end (s : string) : option string :=
  match s with
  | EmptyString => None
  | String c t =>
      if is_alnum c then
        match t with
        | EmptyString => Some (String c EmptyString)
        | String "010"%char EmptyString => Some (String c EmptyString)
        | _ => match alnum_to_end t with
               | Some r => Some (String c r)
               | None => None
               end
        end
      else None
  end.

(** Group 1 of [re.search(r"(\.[A-Za-z0-9]+)$", path)]. *)
Fixpoint ext_search (path : string) : option string :=
  match path with
  | EmptyString => None
  | String c t =>
      if Ascii.eqb c "."%char then
        match alnum_to_end t with
        | Some r => Some (String c r)
        | None => ext_search t
        end
      else ext_search t
  end.

Definition _ext (path : string) : string :=
  match ext_search path with
  | Some g => lower g
  | None => EmptyString
  end.

Definition _top_level_dir (path : string) : string :=
  let p := split "/" (strip "/" path) in
  if 2 <=? len p then hd EmptyString p else "(root)".

(** *** Confidence *)

Definition _compute_confidence
           (changed_files adds dels test_touched patch_missing : Z) : Confidence :=
  let loc := adds + dels in
  let confidence := High in
  let confidence :=
    if (loc >? 1500) || (changed_files >? 60) then Medium else confidence in
  let confidence :=
    if (loc >? 4000) || (changed_files >? 120) then Low else confidence in
  let confidence :=
    if (test_touched =? 0) && (loc >? 300) &&
       match confidence with High => true | _ => false end
    then Medium else confidence in
  let confidence :=
    if (test_touched =? 0) && (loc >? 1500) then Low else confidence in
  let confidence :=
    if (patch_missing >=? 10) &&
       match confidence with High => true | _ => false end
    then Medium else confidence in
  let confidence :=
    if patch_missing >=? 30 then Low else confidence in
  confidence.

(** *** Ranking of signals *)

(** The inner function [weight] of [_pick_risk_drivers]. *)
Definition weight (s : string) : Z :=
  let s_low := lower s in
  let w := 0 in
  let w := if contains "security" s_low || contains "auth" s_low
           then w + 100 else w in
  let w := if contains "sql" s_low || contains "migration" s_low
              || contains "schema" s_low
           then w + 90 else w in
  let w := if contains "config" s_low then w + 70 else w in
  let w := if contains "no tests" s_low || contains "test" s_low
           then w + 65 else w in
  let w := if contains "large diff" s_low || contains "big edit" s_low
           then w + 50 else w in
  let w := if contains "touches many files" s_low then w + 40 else w in
  let w := if contains "removed" s_low then w + 25 else w in
  w.

(** The loop over [ranked]: [seen] and [out] are its two accumulators,
    and the loop is left as soon as [out] holds [max_items] entries. *)
Fixpoint pick_loop (ranked : list string) (max_items : Z)
         (seen : gset string) (out : list string) : list string :=
  match ranked with
  | [] => out
  | s :: rest =>
      let '(out, seen) :=
        if bool_decide (s ∈ seen) then (out, seen)
        else (out ++ [s], {[ s ]} ∪ seen) in
      if len out >=? max_items then out
      else pick_loop rest max_items seen out
  end.

Definition _pick_risk_drivers (signals : list string) (max_items : Z)
  : list string :=
  match signals with
  | [] => []
  | _ =>
      let ranked := sorted_desc weight signals in
      pick_loop ranked max_items ∅ []
  end.

(** *** Narrative *)

Definition _review_focus_from_facts
           (config_files sql_files test_touched risky_paths : Z) (level : Level)
  : list string :=
  let items := [] in
  let items :=
    if negb (risky_paths =? 0) then
      items ++ ["Review auth/security/payment-related changes carefully (sensitive area touched)."]
    else items in
  let items :=
    if negb (sql_files =? 0) then
      items ++ ["Verify migrations are reversible; check locks/indexes and rollout/rollback plan."]
    else items in
  let items :=
    if negb (config_files =? 0) then
      items ++ ["Validate config defaults and environment overrides (staging vs prod)."]
    else items in
  let items :=
    if test_touched =? 0 then
      items ++ ["Request tests or a justification (touched code without test changes)."]
    else items in
  let items :=
    match level with
    | MEDIUM | HIGH =>
        items ++ ["Ask for monitoring/rollback notes for deploy (what to watch, how to revert)."]
    | LOW => items
    end in
  let items :=
    match level with
    | HIGH =>
        items ++ ["Consider splitting PR or requiring explicit sign-off (risk concentrated)."]
    | _ => items
    end in
  take 5 items.

Definition _operational_notes (config_files sql_files : Z) : list string :=
  let notes := [] in
  let notes :=
    if sql_files =? 0 then notes ++ ["No DB migrations detected."] else notes in
  let notes :=
    if config_files =? 0 then notes ++ ["No config changes detected."] else notes in
  notes.

(** *** The scan of the change *)

(** The variables [compute_risk] updates while it scans the change. *)
Record ScanState : Type := mkScan {
  st_score : Z;
  st_signals : list string;
  st_risky_paths : Z;
  st_config_files : Z;
  st_sql_files : Z;
  st_test_touched : Z;
  st_core_code_touched : Z;
  st_patch_missing : Z;
  st_ext_counts : Counter;
  st_top_dirs : Counter;
  st_touched_migrations : bool;
  st_touched_api_contract : bool
}.

(** Truth value of an optional string: [None] and the empty string are falsy. *)
Definition truthy_str (x : option string) : bool :=
  match x with
  | Some s => negb (String.eqb s EmptyString)
  | None => false
  end.

Definition file_path (f : ChangedFile) : string :=
  or_str (get (f_filename f) (Some EmptyString)) EmptyString.

Definition file_status (f : ChangedFile) : string :=
  or_str (get (f_status f) (Some EmptyString)) EmptyString.

Definition file_adds (f : ChangedFile) : Z := or_int (get (f_additions f) (Some 0)) 0.
Definition file_dels (f : ChangedFile) : Z := or_int (get (f_deletions f) (Some 0)) 0.

Definition is_test_path (path : string) : bool :=
  search (whole_word "test") path || search (whole_word "spec") path.

Definition is_config_path (path : string) : bool :=
  bool_decide (_ext path ∈ CONFIG_EXTS) || contains "config" (lower path).

Definition is_risky_path (path : string) : bool :=
  existsb (fun pat => search pat path) RISKY_PATH_PATTERNS.

(** The three keyword heuristics on a patch, in the order of the source:
    the new score and signal list. *)
Definition patch_scan (path patch : string) (score : Z) (signals : list string)
  : Z * list string :=
  let '(score, signals) :=
    if search RESILIENCE_RE patch then
      (score + 4,
       signals ++ [fmt ["Changes resilience behavior hinted in "; path;
                        " (timeouts/retries/rate limits)."]])
    else (score, signals) in
  let '(score, signals) :=
    if search SECURITY_RE patch then
      (score + 8,
       signals ++ [fmt ["Potential security weakening patterns in "; path; "."]])
    else (score, signals) in
  let '(score, signals) :=
    if search SQL_RE patch then
      (score + 10,
       signals ++ [fmt ["Potentially risky SQL pattern hinted in "; path; "."]])
    else (score, signals) in
  (score, signals).

(** The body of [for f in files]. *)
Definition file_step (st : ScanState) (f : ChangedFile) : ScanState :=
  let path := file_path f in
  let status := file_status f in
  let ext := _ext path in
  let ext_counts := incr (or_str (Some ext) "(none)") (st_ext_counts st) in
  let top_dirs := incr (_top_level_dir path) (st_top_dirs st) in
  let patch := get (f_patch f) None in
  let patch_missing :=
    if negb (truthy_str patch) then st_patch_missing st + 1
    else st_patch_missing st in
  let adds := file_adds f in
  let dels := file_dels f in
  let test_touched :=
    if is_test_path path then st_test_touched st + 1 else st_test_touched st in
  let core_code_touched :=
    if bool_decide (ext ∈ CODE_EXTS) then st_core_code_touched st + 1
    else st_core_code_touched st in
  let config_files :=
    if is_config_path path then st_config_files st + 1 else st_config_files st in
  let sql_files :=
    if String.eqb ext ".sql" then st_sql_files st + 1 else st_sql_files st in
  let low_path := lower path in
  let touched_migrations :=
    if existsb (fun h => contains h low_path) MIGRATION_HINTS then true
    else st_touched_migrations st in
  let touched_api_contract :=
    if existsb (fun h => contains h low_path) API_CONTRACT_HINTS then true
    else st_touched_api_contract st in
  let risky_paths :=
    if is_risky_path path then st_risky_paths st + 1 else st_risky_paths st in
  let '(score, signals) :=
    match patch with
    | Some p =>
        if truthy_str patch then patch_scan path p (st_score st) (st_signals st)
        else (st_score st, st_signals st)
    | None => (st_score st, st_signals st)
    end in
  let '(score, signals) :=
    if adds + dels >? 250 then
      (score + 6,
       signals ++ [fmt ["Big edit in "; path; " ("; of_int adds; "+/";
                        of_int dels; "-)."]])
    else (score, signals) in
  let '(score, signals) :=
    if String.eqb status "removed" then
      (score + 3,
       signals ++ [fmt ["File removed: "; path; ". Confirm no runtime dependency."]])
    else (score, signals) in
  {| st_score := score;
     st_signals := signals;
     st_risky_paths := risky_paths;
     st_config_files := config_files;
     st_sql_files := sql_files;
     st_test_touched := test_touched;
     st_core_code_touched := core_code_touched;
     st_patch_missing := patch_missing;
     st_ext_counts := ext_counts;
     st_top_dirs := top_dirs;
     st_touched_migrations := touched_migrations;
     st_touched_api_contract := touched_api_contract |}.

Definition meta_additions (pr : ChangeMeta) : Z :=
  or_int (get (pr_additions pr) (Some 0)) 0.

Definition meta_deletions (pr : ChangeMeta) : Z :=
  or_int (get (pr_deletions pr) (Some 0)) 0.

Definition meta_changed_files (files : list ChangedFile) (pr : ChangeMeta) : Z :=
  or_int (get (pr_changed_files pr) (Some (len files))) (len files).

(** [f.get("status") == "renamed"] *)
Definition is_renamed (f : ChangedFile) : bool :=
  match get (f_status f) None with
  | Some s => String.eqb s "renamed"
  | None => false
  end.

(** The detectors that run before the loop over the files. *)
Definition pre_scan (files : list ChangedFile) (pr : ChangeMeta) : ScanState :=
  let additions := meta_additions pr in
  let deletions := meta_deletions pr in
  let changed_files := meta_changed_files files pr in
  let signals := [] in
  let score := 0 in
  let loc := additions + deletions in
  let '(score, signals) :=
    if loc >? 800 then
      (score + 30,
       signals ++ [fmt ["Large diff ("; of_int additions; "+ / ";
                        of_int deletions; "-)."]])
    else if loc >? 300 then
      (score + 18,
       signals ++ [fmt ["Medium diff size ("; of_int additions; "+ / ";
                        of_int deletions; "-)."]])
    else (score, signals) in
  let '(score, signals) :=
    if changed_files >? 40 then
      (score + 20,
       signals ++ [fmt ["Touches many files ("; of_int changed_files; ")."]])
    else if changed_files >? 15 then
      (score + 10,
       signals ++ [fmt ["Touches multiple files ("; of_int changed_files; ")."]])
    else (score, signals) in
  let renames := len (List.filter is_renamed files) in
  let '(score, signals) :=
    if renames >=? 5 then
      (score + 10,
       signals ++ [fmt ["Multiple renames ("; of_int renames;
                        "). Review for missing references."]])
    else (score, signals) in
  {| st_score := score;
     st_signals := signals;
     st_risky_paths := 0;
     st_config_files := 0;
     st_sql_files := 0;
     st_test_touched := 0;
     st_core_code_touched := 0;
     st_patch_missing := 0;
     st_ext_counts := [];
     st_top_dirs := [];
     st_touched_migrations := false;
     st_touched_api_contract := false |}.

(** The detectors on the totals, which run after the loop. *)
Definition post_scan (st : ScanState) : Z * list string :=
  let score := st_score st in
  let signals := st_signals st in
  let '(score, signals) :=
    if st_risky_paths st >? 0 then
      (score + Z.min 20 (6 + 2 * st_risky_paths st),
       signals ++ [fmt ["Touches sensitive area paths (count=";
                        of_int (st_risky_paths st); ")."]])
    else (score, signals) in
  let '(score, signals) :=
    if st_config_files st >? 0 then
      (score + Z.min 12 (4 + 2 * st_config_files st),
       signals ++ [fmt ["Config changes detected (count=";
                        of_int (st_config_files st); ")."]])
    else (score, signals) in
  let '(score, signals) :=
    if st_sql_files st >? 0 then
      (score + Z.min 18 (6 + 4 * st_sql_files st),
       signals ++ [fmt ["SQL changes detected (count=";
                        of_int (st_sql_files st); ")."]])
    else (score, signals) in
  let '(score, signals) :=
    if (st_core_code_touched st >? 0) && (st_test_touched st =? 0) then
      (score + 18,
       signals ++ ["Touches code but no tests appear modified. Possible test gap."])
    else (score, signals) in
  (score, signals).

(** The state of the scan when the loop over [files] is left. *)
Definition scan (files : list ChangedFile) (pr : ChangeMeta) : ScanState :=
  fold_left file_step files (pre_scan files pr).

(** The score before the clamp, and the signals before the clean-up. *)
Definition raw_score (files : list ChangedFile) (pr : ChangeMeta) : Z :=
  fst (post_scan (scan files pr)).

Definition raw_signals (files : list ChangedFile) (pr : ChangeMeta) : list string :=
  snd (post_scan (scan files pr)).

(** [int(round(n / 10.0))].  The quotient is the double nearest to [n/10]
    and [round] sends a double to the nearest integer, a tie to the even
    one.  For an integer [n] a tie arises exactly when [n mod 10 = 5], where
    [n/10] is a half-integer and the double is exact; otherwise [n/10] lies
    at least one tenth away from every half-integer, far more than the error
    of the division for the scores in [0,100] this is applied to. *)
Definition round_tenth (n : Z) : Z :=
  let q := n / 10 in
  let r := n mod 10 in
  if r <? 5 then q
  else if 5 <? r then q + 1
  else if Z.even q then q else q + 1.

(** The clean-up loop: [seen] and [uniq_signals] are its accumulators. *)
Fixpoint dedup_loop (signals : list string) (seen : gset string)
         (uniq_signals : list string) : list string :=
  match signals with
  | [] => uniq_signals
  | s :: rest =>
      if bool_decide (s ∈ seen) then dedup_loop rest seen uniq_signals
      else dedup_loop rest ({[ s ]} ∪ seen) (uniq_signals ++ [s])
  end.

Definition impact_entries (st : ScanState) : list string :=
  let impact :=
    map (fun '(d, n) => fmt [d; "/ (files: "; of_int n; ")"])
        (most_common 4 (st_top_dirs st)) in
  let impact :=
    if negb (st_config_files st =? 0) then
      impact ++ ["Config touched (env defaults/overrides may change)."]
    else impact in
  let impact :=
    if negb (st_sql_files st =? 0) || st_touched_migrations st then
      impact ++ ["Database schema/migrations likely affected."]
    else impact in
  let impact :=
    if st_touched_api_contract st then
      impact ++ ["API contract files touched (OpenAPI/Proto/GraphQL)."]
    else impact in
  let impact :=
    if negb (st_risky_paths st =? 0) then
      impact ++ ["Sensitive subsystem paths touched (auth/security/billing/etc)."]
    else impact in
  impact.

Definition compute_risk (files : list ChangedFile) (pr : ChangeMeta) : RiskResult :=
  let additions := meta_additions pr in
  let deletions := meta_deletions pr in
  let changed_files := meta_changed_files files pr in
  let st := scan files pr in
  let '(score, signals) := post_scan st in
  let score := Z.max 0 (Z.min 100 score) in
  let score_10 := Z.max 0 (Z.min 10 (round_tenth score)) in
  let level :=
    if score >=? 70 then HIGH
    else if score >=? 40 then MEDIUM
    else LOW in
  let confidence :=
    _compute_confidence changed_files additions deletions
                        (st_test_touched st) (st_patch_missing st) in
  let impact := impact_entries st in
  let uniq_signals := dedup_loop signals ∅ [] in
  let risk_drivers := _pick_risk_drivers uniq_signals 6 in
  let review_focus :=
    _review_focus_from_facts (st_config_files st) (st_sql_files st)
                             (st_test_touched st) (st_risky_paths st) level in
  let op_notes := _operational_notes (st_config_files st) (st_sql_files st) in
  let top_exts :=
    join ", " (map (fun '(k, v) => fmt [k; ":"; of_int v])
                   (most_common 8 (st_ext_counts st))) in
  let file_summary :=
    fmt [of_int changed_files; " files | "; of_int additions; "+/";
         of_int deletions; "- | by extension: "; top_exts] in
  {| score_100 := score;
     score_10 := score_10;
     level := level;
     confidence := confidence;
     signals := uniq_signals;
     impact_map := take 8 impact;
     risk_drivers := risk_drivers;
     review_focus := review_focus;
     operational_notes := op_notes;
     file_summary := file_summary;
     changed_files := changed_files;
     additions := additions;
     deletions := deletions;
     config_files := st_config_files st;
     sql_files := st_sql_files st;
     test_touched := st_test_touched st;
     risky_paths := st_risky_paths st |}.

(** ** The confidence rules, one at a time *)

(** The six conditional assignments of [_compute_confidence], in source
    order, each as the update it makes to the variable [confidence]. *)
Definition confidence_rules
           (changed_files adds dels test_touched patch_missing : Z)
  : list (Confidence -> Confidence) :=
  let loc := adds + dels in
  [ (fun c => if (loc >? 1500) || (changed_files >? 60) then Medium else c);
    (fun c => if (loc >? 4000) || (changed_files >? 120) then Low else c);
    (fun c => if (test_touched =? 0) && (loc >? 300) &&
                 match c with High => true | _ => false end
              then Medium else c);
    (fun c => if (test_touched =? 0) && (loc >? 1500) then Low else c);
    (fun c => if (patch_missing >=? 10) &&
                 match c with High => true | _ => false end
              then Medium else c);
    (fun c => if patch_missing >=? 30 then Low else c) ].

(** The value of [confidence] once the first [n] rules have run. *)
Definition confidence_after (n : nat)
           (changed_files adds dels test_touched patch_missing : Z) : Confidence :=
  fold_left (fun c rule => rule c)
            (take n (confidence_rules changed_files adds dels
                                      test_touched patch_missing))
            High.

(** High above Medium above Low. *)
Definition conf_rank (c : Confidence) : Z :=
  match c with High => 2 | Medium => 1 | Low => 0 end.

(** ** The ranking as the specification words it *)

(** The substring rules of the ranking and their weights. *)
Definition WEIGHT_RULES : list (list string * Z) :=
  [ (["security"; "auth"], 100);
    (["sql"; "migration"; "schema"], 90);
    (["config"], 70);
    (["no tests"; "test"], 65);
    (["large diff"; "big edit"], 50);
    (["touches many files"], 40);
    (["removed"], 25) ].

(** The sum of the weights of the rules one of whose substrings occurs in
    the text, compared without regard to case. *)
Definition spec_weight (s : string) : Z :=
  fold_right
    (fun '(keys, w) acc =>
       (if existsb (fun k => contains k (lower s)) keys then w else 0) + acc)
    0 WEIGHT_RULES.

(** The first occurrence of every string, in the order of the list. *)
Fixpoint first_occurrences (l : list string) : list string :=
  match l with
  | [] => []
  | x :: t => x :: List.filter (fun y => negb (String.eqb y x)) (first_occurrences t)
  end.

(** ** Numeric fields that are missing or null *)

Definition zero_when_missing (x : field Z) : field Z :=
  match x with
  | Present n => Present n
  | Absent | Null => Present 0
  end.

(** The file record with its counts made explicit. *)
Definition coerce_file (f : ChangedFile) : ChangedFile :=
  {| f_filename := f_filename f;
     f_status := f_status f;
     f_additions := zero_when_missing (f_additions f);
     f_deletions := zero_when_missing (f_deletions f);
     f_patch := f_patch f |}.

(** The metadata with its counts made explicit: the number of changed
    files falls back on the number of file records. *)
Definition coerce_meta (files : list ChangedFile) (pr : ChangeMeta) : ChangeMeta :=
  {| pr_additions := zero_when_missing (pr_additions pr);
     pr_deletions := zero_when_missing (pr_deletions pr);
     pr_changed_files :=
       match pr_changed_files pr with
       | Present n => Present n
       | Absent | Null => Present (len files)
       end |}.

(** ** The totals of the scan *)

(** The score and the six counters among the variables of the scan: what
    the score, the level and the confidence are computed from. *)
Record Totals : Type := mkTotals {
  t_score : Z;
  t_risky_paths : Z;
  t_config_files : Z;
  t_sql_files : Z;
  t_test_touched : Z;
  t_core_code_touched : Z;
  t_patch_missing : Z
}.

Definition totals_of (st : ScanState) : Totals :=
  {| t_score := st_score st;
     t_risky_paths := st_risky_paths st;
     t_config_files := st_config_files st;
     t_sql_files := st_sql_files st;
     t_test_touched := st_test_touched st;
     t_core_code_touched := st_core_code_touched st;
     t_patch_missing := st_patch_missing st |}.

Definition totals_add (a b : Totals) : Totals :=
  {| t_score := t_score a + t_score b;
     t_risky_paths := t_risky_paths a + t_risky_paths b;
     t_config_files := t_config_files a + t_config_files b;
     t_sql_files := t_sql_files a + t_sql_files b;
     t_test_touched := t_test_touched a + t_test_touched b;
     t_core_code_touched := t_core_code_touched a + t_core_code_touched b;
     t_patch_missing := t_patch_missing a + t_patch_missing b |}.

(** The scan state with every variable at its initial value. *)
Definition zero_scan : ScanState :=
  {| st_score := 0;
     st_signals := [];
     st_risky_paths := 0;
     st_config_files := 0;
     st_sql_files := 0;
     st_test_touched := 0;
     st_core_code_touched := 0;
     st_patch_missing := 0;
     st_ext_counts := [];
     st_top_dirs := [];
     st_touched_migrations := false;
     st_touched_api_contract := false |}.

(** What one file adds to the totals: its step from the initial state. *)
Definition file_totals (f : ChangedFile) : Totals :=
  totals_of (file_step zero_scan f).

(** ** The scan in closed form *)

(** The sum of a list of integers. *)
Definition sumZ (l : list Z) : Z := fold_right Z.add 0 l.

(** The number of files that satisfy a test. *)
Definition count_files (p : ChangedFile -> bool) (files : list ChangedFile) : Z :=
  len (List.filter p files).

(** The file carries a patch that is a non-empty text. *)
Definition has_patch (f : ChangedFile) : bool := truthy_str (get (f_patch f) None).

(** The text of the patch, empty when there is none. *)
Definition patch_text (f : ChangedFile) : string :=
  or_str (get (f_patch f) None) EmptyString.

Definition is_code_file (f : ChangedFile) : bool :=
  bool_decide (_ext (file_path f) ∈ CODE_EXTS).

Definition is_sql_file (f : ChangedFile) : bool :=
  String.eqb (_ext (file_path f)) ".sql".

Definition is_big_edit (f : ChangedFile) : bool :=
  file_adds f + file_dels f >? 250.

Definition is_removed (f : ChangedFile) : bool :=
  String.eqb (file_status f) "removed".

(** What the detectors of the loop add to the score for one file. *)
Definition file_score (f : ChangedFile) : Z :=
  (if has_patch f && search RESILIENCE_RE (patch_text f) then 4 else 0) +
  (if has_patch f && search SECURITY_RE (patch_text f) then 8 else 0) +
  (if has_patch f && search SQL_RE (patch_text f) then 10 else 0) +
  (if is_big_edit f then 6 else 0) +
  (if is_removed f then 3 else 0).

(** The signals the detectors of the loop emit for one file, in order. *)
Definition file_signals (f : ChangedFile) : list string :=
  (if has_patch f && search RESILIENCE_RE (patch_text f) then
     [fmt ["Changes resilience behavior hinted in "; file_path f;
           " (timeouts/retries/rate limits)."]]
   else []) ++
  (if has_patch f && search SECURITY_RE (patch_text f) then
     [fmt ["Potential security weakening patterns in "; file_path f; "."]]
   else []) ++
  (if has_patch f && search SQL_RE (patch_text f) then
     [fmt ["Potentially risky SQL pattern hinted in "; file_path f; "."]]
   else []) ++
  (if is_big_edit f then
     [fmt ["Big edit in "; file_path f; " ("; of_int (file_adds f); "+/";
           of_int (file_dels f); "-)."]]
   else []) ++
  (if is_removed f then
     [fmt ["File removed: "; file_path f; ". Confirm no runtime dependency."]]
   else []).

(** What the detectors on the totals add to the score. *)
Definition totals_bonus (risky config sql code test : Z) : Z :=
  (if risky >? 0 then Z.min 20 (6 + 2 * risky) else 0) +
  (if config >? 0 then Z.min 12 (4 + 2 * config) else 0) +
  (if sql >? 0 then Z.min 18 (6 + 4 * sql) else 0) +
  (if (code >? 0) && (test =? 0) then 18 else 0).

(** The signals the detectors on the totals emit, in order. *)
Definition totals_signals (risky config sql code test : Z) : list string :=
  (if risky >? 0 then
     [fmt ["Touches sensitive area paths (count="; of_int risky; ")."]]
   else []) ++
  (if config >? 0 then
     [fmt ["Config changes detected (count="; of_int config; ")."]]
   else []) ++
  (if sql >? 0 then
     [fmt ["SQL changes detected (count="; of_int sql; ")."]]
   else []) ++
  (if (code >? 0) && (test =? 0) then
     ["Touches code but no tests appear modified. Possible test gap."]
   else []).

(** The number of files whose status is [renamed]. *)
Definition renames_of (files : list ChangedFile) : Z := count_files is_renamed files.

(** What the detectors on the metadata add to the score. *)
Definition meta_score (files : list ChangedFile) (pr : ChangeMeta) : Z :=
  let loc := meta_additions pr + meta_deletions pr in
  let changed_files := meta_changed_files files pr in
  (if loc >? 800 then 30 else if loc >? 300 then 18 else 0) +
  (if changed_files >? 40 then 20 else if changed_files >? 15 then 10 else 0) +
  (if renames_of files >=? 5 then 10 else 0).

(** The signals the detectors on the metadata emit, in order. *)
Definition meta_signals (files : list ChangedFile) (pr : ChangeMeta) : list string :=
  let additions := meta_additions pr in
  let deletions := meta_deletions pr in
  let loc := additions + deletions in
  let changed_files := meta_changed_files files pr in
  (if loc >? 800 then
     [fmt ["Large diff ("; of_int additions; "+ / "; of_int deletions; "-)."]]
   else if loc >? 300 then
     [fmt ["Medium diff size ("; of_int additions; "+ / ";
           of_int deletions; "-)."]]
   else []) ++
  (if changed_files >? 40 then
     [fmt ["Touches many files ("; of_int changed_files; ")."]]
   else if changed_files >? 15 then
     [fmt ["Touches multiple files ("; of_int changed_files; ")."]]
   else []) ++
  (if renames_of files >=? 5 then
     [fmt ["Multiple renames ("; of_int (renames_of files);
           "). Review for missing references."]]
   else []).

(** ** Predicates on text *)

(** Every character of the text satisfies the test. *)
Fixpoint all_chars (p : ascii -> bool) (s : string) : bool :=
  match s with
  | EmptyString => true
  | String c t => p c && all_chars p t
  end.

Definition is_slash (c : ascii) : bool := Ascii.eqb c "/"%char.

(** The last character of [s], or [prev] when [s] is empty. *)
Fixpoint last_char (prev : option ascii) (s : string) : option ascii :=
  match s with
  | EmptyString => prev
  | String c t => last_char (Some c) t
  end.

(** ** Text fields that are missing, null or empty *)

Definition text_when_missing (x : field string) : field string :=
  match x with
  | Present s => Present s
  | Absent | Null => Present EmptyString
  end.

Definition patch_when_empty (x : field string) : field string :=
  match x with
  | Present s => if String.eqb s EmptyString then Absent else Present s
  | Absent | Null => Absent
  end.

(** The file record with an explicit path and status, and with a patch
    only when it is a non-empty text. *)
Definition normalize_file (f : ChangedFile) : ChangedFile :=
  {| f_filename := text_when_missing (f_filename f);
     f_status := text_when_missing (f_status f);
     f_additions := f_additions f;
     f_deletions := f_deletions f;
     f_patch := patch_when_empty (f_patch f) |}.

(** A well-formed counter after [n] increments: distinct keys, counts of
    at least one, [n] in total. *)
Definition counts_files (n : Z) (c : Counter) : Prop :=
  NoDup (map fst c) /\ Forall (fun kv => 1 <= snd kv) c /\ sumZ (map snd c) = n.

(** ** [app/config.py]: the settings read from the environment *)

Module Config.

(** [s.lstrip()] and [s.rstrip()]: white space is what [\s] matches. *)
Fixpoint lstrip_ws (s : string) : string :=
  match s with
  | EmptyString => EmptyString
  | String c t => if is_space c then lstrip_ws t else s
  end.

Fixpoint rstrip_ws (s : string) : string :=
  match s with
  | EmptyString => EmptyString
  | String c t =>
      let t' := rstrip_ws t in
      if is_space c && String.eqb t' EmptyString then EmptyString
      else String c t'
  end.

(** [s.strip()] *)
Definition strip_ws (s : string) : string := rstrip_ws (lstrip_ws s).

Record Settings : Type := mkSettings {
  github_token : string;
  webhook_secret : string;
  base_url : string
}.

(** The default of the field [base_url]. *)
Definition default_base_url : string := "https://api.github.com".

(** The outcome of a call that may raise [RuntimeError]. *)
Inductive result (A : Type) : Type :=
| RuntimeError (msg : string)
| Return (a : A).
Arguments RuntimeError {A} msg.
Arguments Return {A} a.

(** [os.getenv(name, default)] on the environment [environ]. *)
Definition getenv (environ : gmap string string) (name default : string) : string :=
  match environ !! name with
  | Some v => v
  | None => default
  end.

Definition load_settings (environ : gmap string string) : result Settings :=
  let github_token := strip_ws (getenv environ "GITHUB_TOKEN" EmptyString) in
  let webhook_secret :=
    strip_ws (getenv environ "GITHUB_WEBHOOK_SECRET" EmptyString) in
  if String.eqb github_token EmptyString then
    RuntimeError "Missing GITHUB_TOKEN"
  else if String.eqb webhook_secret EmptyString then
    RuntimeError "Missing GITHUB_WEBHOOK_SECRET"
  else
    Return {| github_token := github_token;
              webhook_secret := webhook_secret;
              base_url := default_base_url |}.

(** The text starts, or ends, with a white-space character. *)
Definition starts_with_space (s : string) : bool :=
  match s with String c _ => is_space c | EmptyString => false end.

Definition ends_with_space (s : string) : bool :=
  match last_char None s with Some c => is_space c | None => false end.

(** An environment that sets both variables, padded with white space. *)
Definition padded_environ : gmap string string :=
  <[ "GITHUB_TOKEN" := "  ghp_abc 123
" ]> (<[ "GITHUB_WEBHOOK_SECRET" := " s3cret" ]> ∅).

End Config.

(** ** [app/github.py]: the pages of [list_pr_files] *)

Module GitHub.

(** What [_get] gives for one page: [raise_for_status] raises on an error
    status, otherwise [r.json()] is the batch of that page. *)
Inductive response (A : Type) : Type :=
| HttpError (status : Z)
| Json (batch : list A).
Arguments HttpError {A} status.
Arguments Json {A} batch.

(** How a call ends: the loop has no bound of its own, so the model runs
    it on fuel. *)
Inductive outcome (A : Type) : Type :=
| OutOfFuel
| Raised (status : Z)
| Returned (files : list A).
Arguments OutOfFuel {A}.
Arguments Raised {A} status.
Arguments Returned {A} files.

(** The loop [while True] of [list_pr_files]; [get page] is the answer to
    the request with [per_page = 100] and that page number. *)
Fixpoint list_pr_files_loop {A : Type} (fuel : nat) (get : Z -> response A)
         (page : Z) (files : list A) : outcome A :=
  match fuel with
  | O => OutOfFuel
  | S fuel' =>
      match get page with
      | HttpError status => Raised status
      | Json batch =>
          match batch with
          | [] => Returned files
          | _ :: _ =>
              let files := files ++ batch in
              if len batch <? 100 then Returned files
              else list_pr_files_loop fuel' get (page + 1) files
          end
      end
  end.

Definition list_pr_files {A : Type} (fuel : nat) (get : Z -> response A)
  : outcome A :=
  list_pr_files_loop fuel get 1 [].

(** A host that serves the list [all] in pages of 100, the first page
    being page 1. *)
Definition paginate {A : Type} (all : list A) (page : Z) : response A :=
  Json (take 100 (drop (Z.to_nat (100 * (page - 1))) all)).

End GitHub.

(** ** Inputs of the scenarios *)

(** The scenario of the specification: the file carries a path and a
    status, and neither counts nor a patch. *)
Definition scenario_file : ChangedFile :=
  {| f_filename := Present "auth/login.py";
     f_status := Present "modified";
     f_additions := Absent;
     f_deletions := Absent;
     f_patch := Absent |}.

Definition scenario_meta : ChangeMeta :=
  {| pr_additions := Present 1000;
     pr_deletions := Present 0;
     pr_changed_files := Present 50 |}.

(** The empty change: no file, all-zero metadata. *)
Definition empty_meta : ChangeMeta :=
  {| pr_additions := Present 0;
     pr_deletions := Present 0;
     pr_changed_files := Present 0 |}.

(** A file record with a path and a status only. *)
Definition bare_file (path status : string) : ChangedFile :=
  {| f_filename := Present path;
     f_status := Present status;
     f_additions := Absent;
     f_deletions := Absent;
     f_patch := Absent |}.

(** Four configuration files, one of them removed, in a change of 1000
    lines: 30 + 3 + 12 = 45. *)
Definition files_45 : list ChangedFile :=
  [ bare_file "a.yml" "removed"; bare_file "b.yml" "modified";
    bare_file "c.yml" "modified"; bare_file "d.yml" "modified" ].

Definition meta_45 : ChangeMeta :=
  {| pr_additions := Present 1000;
     pr_deletions := Present 0;
     pr_changed_files := Present 4 |}.

(** The same with one SQL file more, in a change of 50 files:
    30 + 20 + 3 + 12 + 10 = 75. *)
Definition files_75 : list ChangedFile := files_45 ++ [ bare_file "x.sql" "modified" ].

Definition meta_75 : ChangeMeta :=
  {| pr_additions := Present 1000;
     pr_deletions := Present 0;
     pr_changed_files := Present 50 |}.

(** A patch whose only suspicious token is a wildcard standing alone. *)
Definition wildcard_file : ChangedFile :=
  {| f_filename := Present "web/cors.txt";
     f_status := Present "modified";
     f_additions := Present 1;
     f_deletions := Present 0;
     f_patch := Present "+ Access-Control-Allow-Origin: *" |}.

Definition wildcard_meta : ChangeMeta :=
  {| pr_additions := Present 1;
     pr_deletions := Present 0;
     pr_changed_files := Present 1 |}.

(** Metadata whose number of changed files is null. *)
Definition null_count_meta : ChangeMeta :=
  {| pr_additions := Present 0;
     pr_deletions := Present 0;
     pr_changed_files := Null |}.

(** A removed migration whose patch drops a table. *)
Definition drop_table_file : ChangedFile :=
  {| f_filename := Present "db/001_init.sql";
     f_status := Present "removed";
     f_additions := Present 0;
     f_deletions := Present 12;
     f_patch := Present "-CREATE TABLE users (id INT);
+DROP TABLE users;" |}.

(** * Properties *)

(** ** Projections of the result *)

Lemma score_100_eq files pr :
  score_100 (compute_risk files pr) = Z.max 0 (Z.min 100 (raw_score files pr)).
Proof. unfold compute_risk, raw_score. destruct (post_scan _); reflexivity. Qed.

Lemma score_10_eq files pr :
  score_10 (compute_risk files pr) =
  Z.max 0 (Z.min 10 (round_tenth (score_100 (compute_risk files pr)))).
Proof. unfold compute_risk. destruct (post_scan _); reflexivity. Qed.

Lemma level_eq files pr :
  level (compute_risk files pr) =
  let score := score_100 (compute_risk files pr) in
  if score >=? 70 then HIGH else if score >=? 40 then MEDIUM else LOW.
Proof. unfold compute_risk. destruct (post_scan _); reflexivity. Qed.

Lemma confidence_eq files pr :
  confidence (compute_risk files pr) =
  _compute_confidence (meta_changed_files files pr) (meta_additions pr)
    (meta_deletions pr) (st_test_touched (scan files pr))
    (st_patch_missing (scan files pr)).
Proof. unfold compute_risk. destruct (post_scan _); reflexivity. Qed.

Lemma signals_eq files pr :
  signals (compute_risk files pr) = dedup_loop (raw_signals files pr) ∅ [].
Proof. unfold compute_risk, raw_signals. destruct (post_scan _); reflexivity. Qed.

Lemma risk_drivers_eq files pr :
  risk_drivers (compute_risk files pr) =
  _pick_risk_drivers (signals (compute_risk files pr)) 6.
Proof. unfold compute_risk. destruct (post_scan _); reflexivity. Qed.

Lemma review_focus_eq files pr :
  review_focus (compute_risk files pr) =
  _review_focus_from_facts
    (config_files (compute_risk files pr)) (sql_files (compute_risk files pr))
    (test_touched (compute_risk files pr)) (risky_paths (compute_risk files pr))
    (level (compute_risk files pr)).
Proof. unfold compute_risk. destruct (post_scan _); reflexivity. Qed.

Lemma operational_notes_eq files pr :
  operational_notes (compute_risk files pr) =
  _operational_notes (config_files (compute_risk files pr))
                     (sql_files (compute_risk files pr)).
Proof. unfold compute_risk. destruct (post_scan _); reflexivity. Qed.

Lemma impact_map_eq files pr :
  impact_map (compute_risk files pr) = take 8 (impact_entries (scan files pr)).
Proof. unfold compute_risk. destruct (post_scan _); reflexivity. Qed.

Lemma test_touched_eq files pr :
  test_touched (compute_risk files pr) = st_test_touched (scan files pr).
Proof. unfold compute_risk. destruct (post_scan _); reflexivity. Qed.

Lemma changed_files_eq files pr :
  changed_files (compute_risk files pr) = meta_changed_files files pr.
Proof. unfold compute_risk. destruct (post_scan _); reflexivity. Qed.

(** ** Scenarios *)

(** C1. With 1000 additions, no deletion, 50 changed files and the single
    modified file [auth/login.py], no test file is touched; four detectors
    fire (large diff +30, many files +20, one risky path +8, code without
    tests +18), the score is 76, the level HIGH and the confidence Medium. *)
Theorem scenario_auth_login :
  let r := compute_risk [scenario_file] scenario_meta in
  test_touched r = 0 /\
  raw_score [scenario_file] scenario_meta = 30 + 20 + 8 + 18 /\
  signals r =
    [ "Large diff (1000+ / 0-).";
      "Touches many files (50).";
      "Touches sensitive area paths (count=1).";
      "Touches code but no tests appear modified. Possible test gap." ] /\
  score_100 r = 76 /\
  level r = HIGH /\
  confidence r = Medium /\
  _compute_confidence 50 1000 0 0 1 = Medium.
Proof. vm_compute. repeat split; reflexivity. Qed.

(** C3. On the empty file list with all-zero metadata the engine returns a
    result with score 0, level LOW, confidence High, no risk driver, and
    both operational notes. *)
Theorem empty_change_is_low_risk :
  let r := compute_risk [] empty_meta in
  score_100 r = 0 /\
  score_10 r = 0 /\
  level r = LOW /\
  confidence r = High /\
  signals r = [] /\
  risk_drivers r = [] /\
  operational_notes r =
    [ "No DB migrations detected."; "No config changes detected." ] /\
  In "No DB migrations detected." (operational_notes r) /\
  In "No config changes detected." (operational_notes r).
Proof. vm_compute. repeat split; auto. Qed.

(** ** The score and its rounding *)

Lemma round_tenth_nearest (n : Z) :
  0 <= n <= 100 ->
  0 <= round_tenth n <= 10 /\
  Z.abs (10 * round_tenth n - n) <= 5 /\
  (Z.abs (10 * round_tenth n - n) <? 5) || Z.even (round_tenth n) = true.
Proof.
  intros Hn. unfold round_tenth.
  pose proof (Z.div_mod n 10 ltac:(lia)) as Hdm.
  pose proof (Z.mod_pos_bound n 10 ltac:(lia)) as Hr.
  assert (Hq : 0 <= n / 10 <= 10)
    by (split; [apply Z.div_pos; lia | apply Z.div_le_upper_bound; lia]).
  destruct (n mod 10 <? 5) eqn:H1; [apply Z.ltb_lt in H1 | apply Z.ltb_ge in H1].
  - repeat split; lia.
  - destruct (5 <? n mod 10) eqn:H2; [apply Z.ltb_lt in H2 | apply Z.ltb_ge in H2].
    + repeat split; lia.
    + destruct (Z.even (n / 10)) eqn:He.
      * repeat split; try lia. rewrite He; apply orb_true_r.
      * repeat split; try lia.
        rewrite Z.even_add, He; apply orb_true_r.
Qed.

(** C2. For every input the score lies in [0,100], the ten-point score lies
    in [0,10] and is [round(score100/10)], the clamp to [0,10] included: it
    is an integer nearest to a tenth of the score, and at a tie (a score
    ending in 5) the even one, as [round] has it.  Both kinds of tie occur:
    a score of 75 gives 8 and a score of 45 gives 4. *)
Theorem score_bounds_and_rounding :
  (forall files pr,
     let r := compute_risk files pr in
     0 <= score_100 r <= 100 /\
     0 <= score_10 r <= 10 /\
     score_10 r = Z.max 0 (Z.min 10 (round_tenth (score_100 r))) /\
     score_10 r = round_tenth (score_100 r) /\
     Z.abs (10 * score_10 r - score_100 r) <= 5 /\
     (Z.abs (10 * score_10 r - score_100 r) <? 5) || Z.even (score_10 r) = true) /\
  (score_100 (compute_risk files_75 meta_75) = 75 /\
   score_10 (compute_risk files_75 meta_75) = 8) /\
  (score_100 (compute_risk files_45 meta_45) = 45 /\
   score_10 (compute_risk files_45 meta_45) = 4).
Proof.
  split; [| split; vm_compute; split; reflexivity].
  intros files pr r.
  assert (Hs : 0 <= score_100 r <= 100)
    by (unfold r; rewrite score_100_eq; lia).
  destruct (round_tenth_nearest (score_100 r) Hs) as (Hb & Hn & Ht).
  assert (H10 : score_10 r = round_tenth (score_100 r))
    by (unfold r; rewrite score_10_eq; fold r; lia).
  rewrite H10. repeat split; try lia; assumption.
Qed.

(** ** The chain of confidence rules *)

Lemma compute_confidence_is_chain cf a d t p :
  _compute_confidence cf a d t p = confidence_after 6 cf a d t p.
Proof. reflexivity. Qed.

Lemma confidence_chain_saturates n cf a d t p :
  (6 <= n)%nat -> confidence_after n cf a d t p = confidence_after 6 cf a d t p.
Proof.
  intros H. unfold confidence_after.
  rewrite !take_ge by (simpl; lia). reflexivity.
Qed.

Lemma confidence_step_down n cf a d t p :
  conf_rank (confidence_after (S n) cf a d t p) <=
  conf_rank (confidence_after n cf a d t p).
Proof.
  destruct (le_lt_dec 6 n) as [Hn | Hn].
  - rewrite (confidence_chain_saturates (S n)), (confidence_chain_saturates n) by lia.
    lia.
  - destruct n as [| [| [| [| [| [| n]]]]]]; try lia; clear Hn;
      unfold confidence_after, confidence_rules; cbv zeta;
      generalize (a + d >? 1500), (cf >? 60), (a + d >? 4000), (cf >? 120),
                 (t =? 0), (a + d >? 300), (p >=? 10), (p >=? 30);
      intros b1 b2 b3 b4 b5 b6 b7 b8;
      destruct b1, b2, b3, b4, b5, b6, b7, b8; simpl; lia.
Qed.

(** C4. The six rules, run in their order from High, never raise the
    confidence: its value after a longer prefix of the rules is at most its
    value after a shorter one, and the value [_compute_confidence] returns,
    that after all six, is the lowest of them all. *)
Theorem confidence_chain_never_rises :
  forall cf a d t p : Z,
    confidence_after 0 cf a d t p = High /\
    _compute_confidence cf a d t p = confidence_after 6 cf a d t p /\
    (forall n k : nat,
       conf_rank (confidence_after (n + k) cf a d t p) <=
       conf_rank (confidence_after n cf a d t p)) /\
    (forall n : nat,
       conf_rank (_compute_confidence cf a d t p) <=
       conf_rank (confidence_after n cf a d t p)).
Proof.
  intros cf a d t p.
  assert (Hmono : forall n k : nat,
             conf_rank (confidence_after (n + k) cf a d t p) <=
             conf_rank (confidence_after n cf a d t p)).
  { intros n k. induction k as [| k IH].
    - rewrite Nat.add_0_r. lia.
    - rewrite Nat.add_succ_r.
      pose proof (confidence_step_down (n + k) cf a d t p). lia. }
  repeat split; auto.
  intros n. rewrite compute_confidence_is_chain.
  destruct (le_lt_dec n 6) as [Hn | Hn].
  - replace 6%nat with (n + (6 - n))%nat by lia. apply Hmono.
  - rewrite (confidence_chain_saturates n) by lia. lia.
Qed.

(** ** The review checklist *)

(** C10. Whenever no test file is touched, the checklist holds the entry
    that requests tests, whatever else the change touches: the entry does
    not depend on a code file being present, and the checklist is not
    empty. *)
Theorem request_tests_entry_without_tests :
  forall files pr,
    test_touched (compute_risk files pr) = 0 ->
    In "Request tests or a justification (touched code without test changes)."
       (review_focus (compute_risk files pr)) /\
    1 <= len (review_focus (compute_risk files pr)).
Proof.
  intros files pr H.
  rewrite review_focus_eq, H.
  generalize (config_files (compute_risk files pr)),
             (sql_files (compute_risk files pr)),
             (risky_paths (compute_risk files pr)),
             (level (compute_risk files pr)).
  intros c s rp lv. unfold _review_focus_from_facts, len.
  rewrite Z.eqb_refl.
  repeat match goal with
         | |- context [_ ++ [String ?a ?m]] => generalize (String a m); intro
         end.
  destruct (rp =? 0), (s =? 0), (c =? 0), lv; simpl; split; auto 6; lia.
Qed.

(** The empty change touches no code file and no test file, and its
    checklist holds the entry. *)
Lemma request_tests_entry_on_empty_change :
  st_core_code_touched (scan [] empty_meta) = 0 /\
  test_touched (compute_risk [] empty_meta) = 0 /\
  In "Request tests or a justification (touched code without test changes)."
     (review_focus (compute_risk [] empty_meta)) /\
  1 <= len (review_focus (compute_risk [] empty_meta)).
Proof.
  split; [reflexivity |].
  split; [reflexivity |].
  apply (request_tests_entry_without_tests [] empty_meta). reflexivity.
Defined.

(** ** The wildcard of the security pattern *)

(** C7, evaluated on the code.  In the security pattern the escaped star
    stands between two [\b]; a star is not a word character, so the
    pattern takes it only when a word character stands on either side of
    it.  A patch whose wildcard stands alone raises no signal and adds
    nothing to the score. *)
Theorem lone_wildcard_is_not_flagged :
  f_patch wildcard_file = Present "+ Access-Control-Allow-Origin: *" /\
  search SECURITY_RE "+ Access-Control-Allow-Origin: *" = false /\
  search SECURITY_RE "*" = false /\
  search SECURITY_RE "a*b" = true /\
  raw_signals [wildcard_file] wildcard_meta = [] /\
  signals (compute_risk [wildcard_file] wildcard_meta) = [] /\
  raw_score [wildcard_file] wildcard_meta = 0 /\
  score_100 (compute_risk [wildcard_file] wildcard_meta) = 0.
Proof. vm_compute. repeat split; reflexivity. Qed.

(** ** Numeric fields that are missing or null *)

Lemma file_step_coerce st f : file_step st (coerce_file f) = file_step st f.
Proof.
  destruct f as [fn fs fa fd fp].
  unfold file_step, file_adds, file_dels, file_path, file_status, coerce_file; simpl.
  destruct fa, fd; reflexivity.
Qed.

Lemma fold_file_step_coerce files st :
  fold_left file_step (map coerce_file files) st = fold_left file_step files st.
Proof.
  revert st. induction files as [| f files IH]; intros st; simpl.
  - reflexivity.
  - rewrite file_step_coerce. apply IH.
Qed.

Lemma renamed_coerce files :
  List.filter is_renamed (map coerce_file files) =
  map coerce_file (List.filter is_renamed files).
Proof.
  induction files as [| f files IH]; simpl; [reflexivity |].
  replace (is_renamed (coerce_file f)) with (is_renamed f) by reflexivity.
  destruct (is_renamed f); simpl; rewrite IH; reflexivity.
Qed.

Lemma len_map_coerce files : len (map coerce_file files) = len files.
Proof. unfold len. rewrite length_map. reflexivity. Qed.

Lemma meta_additions_coerce files pr :
  meta_additions (coerce_meta files pr) = meta_additions pr.
Proof. unfold meta_additions, coerce_meta; simpl. destruct (pr_additions pr); reflexivity. Qed.

Lemma meta_deletions_coerce files pr :
  meta_deletions (coerce_meta files pr) = meta_deletions pr.
Proof. unfold meta_deletions, coerce_meta; simpl. destruct (pr_deletions pr); reflexivity. Qed.

Lemma meta_changed_files_coerce files pr :
  meta_changed_files (map coerce_file files) (coerce_meta files pr) =
  meta_changed_files files pr.
Proof.
  unfold meta_changed_files, coerce_meta; simpl. rewrite len_map_coerce.
  destruct (pr_changed_files pr); simpl; try reflexivity.
  destruct (len files =? 0) eqn:E; [| reflexivity].
  apply Z.eqb_eq in E. congruence.
Qed.

Lemma pre_scan_coerce files pr :
  pre_scan (map coerce_file files) (coerce_meta files pr) = pre_scan files pr.
Proof.
  unfold pre_scan.
  rewrite meta_additions_coerce, meta_deletions_coerce, meta_changed_files_coerce.
  rewrite renamed_coerce, len_map_coerce. reflexivity.
Qed.

Lemma scan_coerce files pr :
  scan (map coerce_file files) (coerce_meta files pr) = scan files pr.
Proof. unfold scan. rewrite pre_scan_coerce. apply fold_file_step_coerce. Qed.

(** The claim of C8 read literally fails: a null number of changed files
    together with one file record yields 1, the number of records, and
    not the 0 of a null numeric field. *)
Lemma null_changed_files_is_not_zero :
  pr_changed_files null_count_meta = Null /\
  changed_files (compute_risk [bare_file "README.md" "modified"] null_count_meta) = 1 /\
  changed_files (compute_risk [bare_file "README.md" "modified"] null_count_meta) <> 0.
Proof. vm_compute. repeat split; discriminate. Qed.

(** C8, amended.  The engine never fails on a missing or null numeric
    field: the result is that of the input in which every missing or null
    [additions] and [deletions], of the metadata and of each file, is 0, and
    a missing or null number of changed files is the number of file
    records. *)
Theorem missing_counts_are_coerced :
  forall files pr,
    let r := compute_risk files pr in
    r = compute_risk (map coerce_file files) (coerce_meta files pr) /\
    additions r = match pr_additions pr with Present n => n | Absent | Null => 0 end /\
    deletions r = match pr_deletions pr with Present n => n | Absent | Null => 0 end /\
    changed_files r =
      match pr_changed_files pr with
      | Present n => if n =? 0 then len files else n
      | Absent | Null => len files
      end.
Proof.
  intros files pr r. unfold r. split; [| split; [| split]].
  - unfold compute_risk.
    rewrite scan_coerce, meta_additions_coerce, meta_deletions_coerce,
            meta_changed_files_coerce.
    reflexivity.
  - unfold compute_risk. destruct (post_scan _); simpl.
    unfold meta_additions. destruct (pr_additions pr) as [| | n]; simpl; try reflexivity.
    destruct (n =? 0) eqn:E; [apply Z.eqb_eq in E; congruence | reflexivity].
  - unfold compute_risk. destruct (post_scan _); simpl.
    unfold meta_deletions. destruct (pr_deletions pr) as [| | n]; simpl; try reflexivity.
    destruct (n =? 0) eqn:E; [apply Z.eqb_eq in E; congruence | reflexivity].
  - rewrite changed_files_eq. unfold meta_changed_files.
    destruct (pr_changed_files pr); simpl; try reflexivity.
    destruct (len files =? 0); reflexivity.
Qed.

(** ** [sorted(..., reverse=True)]: a stable sort by decreasing key *)

Section SortedDesc.
Context {A : Type} (key : A -> Z).

Lemma insert_desc_perm x l : Permutation (x :: l) (insert_desc key x l).
Proof.
  induction l as [| y t IH]; simpl.
  - reflexivity.
  - destruct (key x <? key y).
    + rewrite perm_swap. apply perm_skip, IH.
    + reflexivity.
Qed.

Lemma sorted_desc_perm l : Permutation l (sorted_desc key l).
Proof.
  induction l as [| x t IH]; simpl.
  - reflexivity.
  - rewrite <- insert_desc_perm. apply perm_skip, IH.
Qed.

Lemma insert_desc_sorted x l :
  StronglySorted (fun a b => key b <= key a) l ->
  StronglySorted (fun a b => key b <= key a) (insert_desc key x l).
Proof.
  induction 1 as [| y t Hs IH Hy]; simpl.
  - repeat constructor.
  - destruct (key x <? key y) eqn:E.
    + apply Z.ltb_lt in E. constructor; [exact IH |].
      rewrite <- insert_desc_perm. constructor; [lia | exact Hy].
    + apply Z.ltb_ge in E.
      constructor; [constructor; assumption |].
      constructor; [exact E |].
      eapply List.Forall_impl; [| exact Hy]. simpl. intros; lia.
Qed.

Lemma sorted_desc_sorted l :
  StronglySorted (fun a b => key b <= key a) (sorted_desc key l).
Proof.
  induction l as [| x t IH]; simpl.
  - constructor.
  - apply insert_desc_sorted, IH.
Qed.

(** Insertion moves an element past strictly larger keys only, so the
    elements of any one key keep their order. *)
Lemma insert_desc_stable w x l :
  List.filter (fun a => key a =? w) (insert_desc key x l) =
  List.filter (fun a => key a =? w) (x :: l).
Proof.
  induction l as [| y t IH]; [reflexivity |].
  simpl insert_desc. destruct (key x <? key y) eqn:E; [| reflexivity].
  apply Z.ltb_lt in E.
  change (List.filter (fun a => key a =? w) (y :: insert_desc key x t))
    with (if key y =? w
          then y :: List.filter (fun a => key a =? w) (insert_desc key x t)
          else List.filter (fun a => key a =? w) (insert_desc key x t)).
  rewrite IH. simpl.
  destruct (key y =? w) eqn:Ey, (key x =? w) eqn:Ex; try reflexivity.
  apply Z.eqb_eq in Ey, Ex. lia.
Qed.

Lemma sorted_desc_stable w l :
  List.filter (fun a => key a =? w) (sorted_desc key l) =
  List.filter (fun a => key a =? w) l.
Proof.
  induction l as [| x t IH]; [reflexivity |].
  simpl sorted_desc. rewrite insert_desc_stable. simpl. rewrite IH. reflexivity.
Qed.

Lemma sorted_desc_ext (key' : A -> Z) l :
  (forall a, key a = key' a) -> sorted_desc key l = sorted_desc key' l.
Proof.
  intros H. induction l as [| x t IH]; [reflexivity |].
  simpl. rewrite IH. generalize (sorted_desc key' t). intros l.
  induction l as [| y u IHu]; [reflexivity |].
  simpl. rewrite !H, IHu. reflexivity.
Qed.
End SortedDesc.

(** ** The ranking of signals *)

(** The weight the source computes is the weight of the table. *)
Lemma weight_is_spec_weight s : weight s = spec_weight s.
Proof.
  unfold weight, spec_weight, WEIGHT_RULES. cbv zeta. simpl.
  rewrite !orb_false_r, ?orb_assoc.
  generalize (contains "security" (lower s) || contains "auth" (lower s)),
             (contains "sql" (lower s) || contains "migration" (lower s)
                || contains "schema" (lower s)),
             (contains "config" (lower s)),
             (contains "no tests" (lower s) || contains "test" (lower s)),
             (contains "large diff" (lower s) || contains "big edit" (lower s)),
             (contains "touches many files" (lower s)),
             (contains "removed" (lower s)).
  intros b1 b2 b3 b4 b5 b6 b7.
  destruct b1, b2, b3, b4, b5, b6, b7; lia.
Qed.

(** On a list without duplicates the selection loop keeps the first
    [max_items] entries. *)
Lemma pick_loop_take ranked : forall m seen out,
  (forall x, x ∈ seen <-> x ∈ out) ->
  NoDup (out ++ ranked) ->
  len out < m ->
  pick_loop ranked m seen out = take (Z.to_nat m) (out ++ ranked).
Proof.
  induction ranked as [| s rest IH]; intros m seen out Hseen Hnd Hlen.
  - simpl. rewrite app_nil_r, take_ge; [reflexivity |].
    unfold len in Hlen. clear -Hlen. lia.
  - assert (Hs : s ∉ out).
    { intros Hin. apply NoDup_app in Hnd as (_ & Hdisj & _).
      apply (Hdisj s Hin). left. }
    simpl. rewrite bool_decide_eq_false_2 by (rewrite Hseen; exact Hs).
    replace (out ++ s :: rest) with ((out ++ [s]) ++ rest) in *
      by (rewrite <- app_assoc; reflexivity).
    destruct (len (out ++ [s]) >=? m) eqn:E; rewrite Z.geb_leb in E;
      [apply Z.leb_le in E | apply Z.leb_gt in E].
    + rewrite take_app_length'; [reflexivity |].
      unfold len in *. rewrite length_app in *. simpl in *. clear -E Hlen. lia.
    + apply IH; [| exact Hnd | exact E].
      intros x. rewrite elem_of_union, elem_of_singleton, Hseen, elem_of_app,
                  list_elem_of_singleton.
      tauto.
Qed.

Lemma pick_risk_drivers_take signals :
  NoDup signals ->
  _pick_risk_drivers signals 6 = take 6 (sorted_desc weight signals).
Proof.
  intros Hnd. destruct signals as [| s rest]; [reflexivity |].
  unfold _pick_risk_drivers.
  rewrite pick_loop_take; [reflexivity | | | reflexivity].
  - intros x. rewrite elem_of_empty, elem_of_nil. tauto.
  - rewrite app_nil_l, <- sorted_desc_perm. exact Hnd.
Qed.

(** C5. On a list of distinct signals the risk drivers are the first six
    entries of the list ranked by the weight of the table (the sum of the
    weights of the substring rules that match the signal, without regard to
    case): the ranking is a rearrangement of the signals by decreasing
    weight in which signals of equal weight keep their order. *)
Theorem risk_drivers_are_top_six_by_weight :
  forall signals : list string,
    NoDup signals ->
    exists ranked : list string,
      Permutation signals ranked /\
      StronglySorted (fun a b => spec_weight b <= spec_weight a) ranked /\
      (forall w : Z,
         List.filter (fun s => spec_weight s =? w) ranked =
         List.filter (fun s => spec_weight s =? w) signals) /\
      _pick_risk_drivers signals 6 = take 6 ranked.
Proof.
  intros signals Hnd. exists (sorted_desc spec_weight signals).
  split; [apply sorted_desc_perm |].
  split; [apply sorted_desc_sorted |].
  split; [intros w; apply sorted_desc_stable |].
  rewrite pick_risk_drivers_take by exact Hnd.
  rewrite (sorted_desc_ext weight spec_weight) by apply weight_is_spec_weight.
  reflexivity.
Qed.

(** Three signals of the engine: the ranking puts the security signal
    first and leaves the two signals of equal weight in their order. *)
Lemma risk_drivers_ranking_example :
  NoDup [ "Touches multiple files (20).";
          "Multiple renames (5). Review for missing references.";
          "Potential security weakening patterns in app.py." ] /\
  exists ranked : list string,
    Permutation
      [ "Touches multiple files (20).";
        "Multiple renames (5). Review for missing references.";
        "Potential security weakening patterns in app.py." ] ranked /\
    StronglySorted (fun a b => spec_weight b <= spec_weight a) ranked /\
    (forall w : Z,
       List.filter (fun s => spec_weight s =? w) ranked =
       List.filter (fun s => spec_weight s =? w)
         [ "Touches multiple files (20).";
           "Multiple renames (5). Review for missing references.";
           "Potential security weakening patterns in app.py." ]) /\
    _pick_risk_drivers
      [ "Touches multiple files (20).";
        "Multiple renames (5). Review for missing references.";
        "Potential security weakening patterns in app.py." ] 6 = take 6 ranked.
Proof.
  assert (Hnd : NoDup [ "Touches multiple files (20).";
                        "Multiple renames (5). Review for missing references.";
                        "Potential security weakening patterns in app.py." ]).
  { apply (bool_decide_unpack _). vm_compute. exact I. }
  split; [exact Hnd |].
  apply (risk_drivers_are_top_six_by_weight _ Hnd).
Defined.

(** ** Distinct signals and the caps of the lists *)

Lemma filter_twice {A : Type} (p q : A -> bool) (l : list A) :
  List.filter p (List.filter q l) = List.filter (fun x => p x && q x) l.
Proof.
  induction l as [| x t IH]; [reflexivity |].
  simpl. destruct (q x) eqn:Eq; simpl.
  - rewrite IH, andb_true_r. reflexivity.
  - rewrite IH, andb_false_r. reflexivity.
Qed.

Lemma elem_of_first_occurrences x l : x ∈ first_occurrences l <-> x ∈ l.
Proof.
  induction l as [| y t IH]; [reflexivity |].
  simpl. rewrite !elem_of_cons, list_elem_of_In, filter_In, <- list_elem_of_In, IH.
  rewrite negb_true_iff, String.eqb_neq.
  destruct (String.eq_dec x y); tauto.
Qed.

Lemma first_occurrences_NoDup l : NoDup (first_occurrences l).
Proof.
  induction l as [| y t IH]; simpl; constructor.
  - rewrite list_elem_of_In, filter_In, String.eqb_refl. simpl.
    intros Hx. destruct Hx as [_ Hx]. discriminate Hx.
  - apply NoDup_ListNoDup, List.NoDup_filter, NoDup_ListNoDup, IH.
Qed.

(** The clean-up loop yields, after what it has already gathered, the first
    occurrences of the strings it has not seen. *)
Lemma dedup_loop_spec l : forall seen uniq,
  dedup_loop l seen uniq =
  uniq ++ List.filter (fun y => negb (bool_decide (y ∈ seen))) (first_occurrences l).
Proof.
  induction l as [| s rest IH]; intros seen uniq.
  - simpl. rewrite app_nil_r. reflexivity.
  - simpl. destruct (bool_decide (s ∈ seen)) eqn:E; rewrite IH; simpl.
    + f_equal. rewrite filter_twice. apply filter_ext. intros y.
      destruct (String.eqb y s) eqn:Ey; simpl.
      * apply String.eqb_eq in Ey. subst y. rewrite E. reflexivity.
      * rewrite andb_true_r. reflexivity.
    + rewrite <- app_assoc. simpl. do 2 f_equal.
      rewrite filter_twice. apply filter_ext. intros y.
      destruct (String.eqb y s) eqn:Ey; simpl.
      * apply String.eqb_eq in Ey. subst y.
        rewrite bool_decide_eq_true_2
          by (apply elem_of_union; left; apply elem_of_singleton; reflexivity).
        rewrite andb_false_r. reflexivity.
      * rewrite andb_true_r. apply String.eqb_neq in Ey.
        f_equal. apply bool_decide_ext.
        rewrite elem_of_union, elem_of_singleton. intuition congruence.
Qed.

Lemma dedup_loop_first_occurrences l :
  dedup_loop l ∅ [] = first_occurrences l.
Proof.
  rewrite dedup_loop_spec. simpl.
  rewrite <- (filter_ext (fun _ => true)).
  - induction (first_occurrences l) as [| x t IH]; simpl; congruence.
  - intros y. rewrite bool_decide_eq_false_2 by apply not_elem_of_empty. reflexivity.
Qed.

(** C6. For every input the signals are the first occurrences of the
    detected signals, in detection order, so no string occurs twice; every
    risk driver is one of the signals; and the lists keep their caps: at
    most 6 risk drivers, 5 checklist entries, 8 impact entries and 2
    operational notes. *)
Theorem signals_distinct_and_lists_capped :
  forall files pr,
    let r := compute_risk files pr in
    signals r = first_occurrences (raw_signals files pr) /\
    NoDup (signals r) /\
    signals r ⊆ raw_signals files pr /\
    raw_signals files pr ⊆ signals r /\
    risk_drivers r ⊆ signals r /\
    len (risk_drivers r) <= 6 /\
    len (review_focus r) <= 5 /\
    len (impact_map r) <= 8 /\
    len (operational_notes r) <= 2.
Proof.
  intros files pr r.
  assert (Hsig : signals r = first_occurrences (raw_signals files pr))
    by (unfold r; rewrite signals_eq; apply dedup_loop_first_occurrences).
  assert (Hnd : NoDup (signals r))
    by (rewrite Hsig; apply first_occurrences_NoDup).
  assert (Hrd : risk_drivers r = take 6 (sorted_desc weight (signals r)))
    by (unfold r; rewrite risk_drivers_eq; apply pick_risk_drivers_take, Hnd).
  split; [exact Hsig |]. split; [exact Hnd |].
  split; [intros x; rewrite Hsig; apply elem_of_first_occurrences |].
  split; [intros x; rewrite Hsig; apply elem_of_first_occurrences |].
  split.
  { intros x. rewrite Hrd. intros Hx. apply elem_of_take in Hx as (i & Hx & _).
    rewrite (sorted_desc_perm weight (signals r)).
    eapply list_elem_of_lookup_2, Hx. }
  unfold len. split; [rewrite Hrd, length_take; lia |].
  split.
  { unfold r. rewrite review_focus_eq. unfold _review_focus_from_facts.
    rewrite length_take. lia. }
  split; [unfold r; rewrite impact_map_eq, length_take; lia |].
  unfold r. rewrite operational_notes_eq. unfold _operational_notes.
  destruct (sql_files _ =? 0), (config_files _ =? 0); simpl; lia.
Qed.

(** ** The order of the files *)

(** The keyword heuristics add to the score they are given. *)
Lemma patch_scan_score path p score sigs :
  fst (patch_scan path p score sigs) = score + fst (patch_scan path p 0 []).
Proof.
  unfold patch_scan.
  destruct (search RESILIENCE_RE p), (search SECURITY_RE p), (search SQL_RE p);
    cbn [fst]; lia.
Qed.

(** Opens the pairs [(score, signals)] that the body of the loop threads. *)
Ltac open_pairs :=
  repeat (match goal with
          | |- context [match ?X with pair _ _ => _ end] => destruct X
          end;
          cbn [st_score st_risky_paths st_config_files st_sql_files
               st_test_touched st_core_code_touched st_patch_missing]).

Ltac counter_step :=
  unfold file_step; open_pairs;
  repeat match goal with
         | |- context [if ?b then _ else _] => destruct b
         end;
  cbn [st_score st_risky_paths st_config_files st_sql_files
       st_test_touched st_core_code_touched st_patch_missing zero_scan]; lia.

Lemma file_step_risky_paths st f :
  st_risky_paths (file_step st f) =
  st_risky_paths st + st_risky_paths (file_step zero_scan f).
Proof. counter_step. Qed.

Lemma file_step_config_files st f :
  st_config_files (file_step st f) =
  st_config_files st + st_config_files (file_step zero_scan f).
Proof. counter_step. Qed.

Lemma file_step_sql_files st f :
  st_sql_files (file_step st f) =
  st_sql_files st + st_sql_files (file_step zero_scan f).
Proof. counter_step. Qed.

Lemma file_step_test_touched st f :
  st_test_touched (file_step st f) =
  st_test_touched st + st_test_touched (file_step zero_scan f).
Proof. counter_step. Qed.

Lemma file_step_core_code_touched st f :
  st_core_code_touched (file_step st f) =
  st_core_code_touched st + st_core_code_touched (file_step zero_scan f).
Proof. counter_step. Qed.

Lemma file_step_patch_missing st f :
  st_patch_missing (file_step st f) =
  st_patch_missing st + st_patch_missing (file_step zero_scan f).
Proof. counter_step. Qed.

Lemma file_step_score st f :
  st_score (file_step st f) = st_score st + st_score (file_step zero_scan f).
Proof.
  unfold file_step. cbn [zero_scan st_score st_signals].
  destruct (get (f_patch f) None) as [p |]; cbn [truthy_str];
    [destruct (negb (String.eqb p EmptyString));
     [pose proof (patch_scan_score (file_path f) p (st_score st) (st_signals st)) as H;
      destruct (patch_scan (file_path f) p (st_score st) (st_signals st)) as [a b];
      destruct (patch_scan (file_path f) p 0 []) as [a0 b0]; cbn [fst] in H |] |];
    destruct (file_adds f + file_dels f >? 250),
             (String.eqb (file_status f) "removed");
    cbn [st_score]; lia.
Qed.

(** One step of the loop adds the totals of its file to those of the
    state, whatever the state. *)
Lemma file_step_totals st f :
  totals_of (file_step st f) = totals_add (totals_of st) (file_totals f).
Proof.
  unfold file_totals, totals_of, totals_add.
  cbn [t_score t_risky_paths t_config_files t_sql_files t_test_touched
       t_core_code_touched t_patch_missing].
  rewrite (file_step_score st), (file_step_risky_paths st),
          (file_step_config_files st), (file_step_sql_files st),
          (file_step_test_touched st), (file_step_core_code_touched st),
          (file_step_patch_missing st).
  reflexivity.
Qed.

Lemma totals_add_swap a b c :
  totals_add (totals_add a b) c = totals_add (totals_add a c) b.
Proof. unfold totals_add; cbn; f_equal; lia. Qed.

Lemma fold_file_step_totals_congr files : forall st st',
  totals_of st = totals_of st' ->
  totals_of (fold_left file_step files st) =
  totals_of (fold_left file_step files st').
Proof.
  induction files as [| f t IH]; intros st st' Hst; simpl; [exact Hst |].
  apply IH. rewrite !file_step_totals, Hst. reflexivity.
Qed.

(** The totals after the loop depend on the totals before it and on the
    files up to their order. *)
Lemma fold_file_step_totals files files' :
  Permutation files files' ->
  forall st st',
    totals_of st = totals_of st' ->
    totals_of (fold_left file_step files st) =
    totals_of (fold_left file_step files' st').
Proof.
  induction 1 as [| f l l' _ IH | f g l | l l' l'' _ IH1 _ IH2];
    intros st st' Hst; simpl.
  - exact Hst.
  - apply IH. rewrite !file_step_totals, Hst. reflexivity.
  - apply fold_file_step_totals_congr.
    rewrite !file_step_totals, Hst. apply totals_add_swap.
  - rewrite (IH1 st st' Hst). apply IH2. reflexivity.
Qed.

Lemma pre_scan_perm files files' pr :
  Permutation files files' -> pre_scan files pr = pre_scan files' pr.
Proof.
  intros H. unfold pre_scan, meta_changed_files, len.
  rewrite (Permutation_length H).
  assert (Hf : Permutation (List.filter is_renamed files)
                           (List.filter is_renamed files')).
  { clear pr. induction H as [| x l l' _ IH | x y l | l l' l'' _ IH1 _ IH2]; simpl.
    - constructor.
    - destruct (is_renamed x); [apply perm_skip |]; exact IH.
    - destruct (is_renamed x), (is_renamed y); try reflexivity. apply perm_swap.
    - etransitivity; eassumption. }
  rewrite (Permutation_length Hf). reflexivity.
Qed.

(** The score before the clamp is a function of the totals. *)
Lemma post_scan_score_totals st st' :
  totals_of st = totals_of st' -> fst (post_scan st) = fst (post_scan st').
Proof.
  intros H. injection H as Hs Hr Hc Hq Ht Hk _.
  unfold post_scan. rewrite Hs, Hr, Hc, Hq, Ht, Hk.
  repeat match goal with
         | |- context [if ?b then _ else _] => destruct b
         end; reflexivity.
Qed.

(** C9. The files in another order, with the same metadata, give the same
    score, hence the same ten-point score and the same level: every
    detector adds to the score, and the totals the last detectors read are
    sums over the files. *)
Theorem score_is_order_independent :
  forall files files' pr,
    Permutation files files' ->
    raw_score files pr = raw_score files' pr /\
    score_100 (compute_risk files pr) = score_100 (compute_risk files' pr) /\
    score_10 (compute_risk files pr) = score_10 (compute_risk files' pr) /\
    level (compute_risk files pr) = level (compute_risk files' pr).
Proof.
  intros files files' pr Hperm.
  assert (Hraw : raw_score files pr = raw_score files' pr).
  { unfold raw_score, scan. apply post_scan_score_totals.
    apply fold_file_step_totals; [exact Hperm |].
    rewrite (pre_scan_perm files files' pr Hperm). reflexivity. }
  assert (H100 : score_100 (compute_risk files pr) =
                 score_100 (compute_risk files' pr))
    by (rewrite !score_100_eq, Hraw; reflexivity).
  split; [exact Hraw |]. split; [exact H100 |].
  split; [rewrite !score_10_eq, H100; reflexivity |].
  rewrite !level_eq, H100. reflexivity.
Qed.

(** The scenario file and the wildcard file in either order. *)
Lemma score_is_order_independent_example :
  Permutation [wildcard_file; scenario_file] [scenario_file; wildcard_file] /\
  raw_score [wildcard_file; scenario_file] scenario_meta =
  raw_score [scenario_file; wildcard_file] scenario_meta /\
  score_100 (compute_risk [wildcard_file; scenario_file] scenario_meta) =
  score_100 (compute_risk [scenario_file; wildcard_file] scenario_meta) /\
  score_10 (compute_risk [wildcard_file; scenario_file] scenario_meta) =
  score_10 (compute_risk [scenario_file; wildcard_file] scenario_meta) /\
  level (compute_risk [wildcard_file; scenario_file] scenario_meta) =
  level (compute_risk [scenario_file; wildcard_file] scenario_meta).
Proof.
  split; [apply perm_swap |].
  apply (score_is_order_independent
           [wildcard_file; scenario_file] [scenario_file; wildcard_file]
           scenario_meta).
  apply perm_swap.
Defined.

(** * Further properties of the engine *)

(** ** The scan in closed form *)

Lemma file_step_signals st f :
  st_signals (file_step st f) = st_signals st ++ file_signals f.
Proof.
  unfold file_step, file_signals, has_patch, patch_text, is_big_edit, is_removed.
  destruct (get (f_patch f) None) as [p |]; cbn [truthy_str or_str];
    [destruct (String.eqb p EmptyString); cbn [negb andb];
     [| unfold patch_scan;
        destruct (search RESILIENCE_RE p), (search SECURITY_RE p),
                 (search SQL_RE p)] |];
    destruct (file_adds f + file_dels f >? 250),
             (String.eqb (file_status f) "removed");
    cbn [st_signals andb app]; rewrite <- ?app_assoc, ?app_nil_r; reflexivity.
Qed.

Lemma file_score_zero_scan f : st_score (file_step zero_scan f) = file_score f.
Proof.
  unfold file_step, file_score, has_patch, patch_text, is_big_edit, is_removed.
  cbn [zero_scan st_score st_signals].
  destruct (get (f_patch f) None) as [p |]; cbn [truthy_str or_str];
    [destruct (String.eqb p EmptyString); cbn [negb andb];
     [| unfold patch_scan;
        destruct (search RESILIENCE_RE p), (search SECURITY_RE p),
                 (search SQL_RE p)] |];
    destruct (file_adds f + file_dels f >? 250),
             (String.eqb (file_status f) "removed");
    cbn [st_score andb]; lia.
Qed.

Ltac counter_zero :=
  unfold file_step; open_pairs;
  repeat match goal with
         | |- context [if ?b then _ else _] => destruct b
         end;
  cbn [st_score st_risky_paths st_config_files st_sql_files
       st_test_touched st_core_code_touched st_patch_missing zero_scan];
  reflexivity.

Lemma file_risky_zero_scan f :
  st_risky_paths (file_step zero_scan f) =
  if is_risky_path (file_path f) then 1 else 0.
Proof. counter_zero. Qed.

Lemma file_config_zero_scan f :
  st_config_files (file_step zero_scan f) =
  if is_config_path (file_path f) then 1 else 0.
Proof. counter_zero. Qed.

Lemma file_sql_zero_scan f :
  st_sql_files (file_step zero_scan f) = if is_sql_file f then 1 else 0.
Proof. unfold is_sql_file. counter_zero. Qed.

Lemma file_test_zero_scan f :
  st_test_touched (file_step zero_scan f) =
  if is_test_path (file_path f) then 1 else 0.
Proof. counter_zero. Qed.

Lemma file_code_zero_scan f :
  st_core_code_touched (file_step zero_scan f) = if is_code_file f then 1 else 0.
Proof. unfold is_code_file. counter_zero. Qed.

Lemma file_missing_zero_scan f :
  st_patch_missing (file_step zero_scan f) = if has_patch f then 0 else 1.
Proof.
  unfold has_patch, file_step. open_pairs.
  destruct (truthy_str (get (f_patch f) None)); reflexivity.
Qed.

Lemma count_files_cons p f files :
  count_files p (f :: files) = (if p f then 1 else 0) + count_files p files.
Proof.
  unfold count_files, len. simpl. destruct (p f); simpl length; lia.
Qed.

Lemma count_files_bounds p files : 0 <= count_files p files <= len files.
Proof.
  unfold count_files, len. pose proof (List.filter_length_le p files). lia.
Qed.

(** The state when the loop is left, from the state when it is entered. *)
Lemma fold_file_step_closed files : forall st,
  let st' := fold_left file_step files st in
  st_score st' = st_score st + sumZ (map file_score files) /\
  st_signals st' = st_signals st ++ concat (map file_signals files) /\
  st_risky_paths st' =
    st_risky_paths st + count_files (fun f => is_risky_path (file_path f)) files /\
  st_config_files st' =
    st_config_files st + count_files (fun f => is_config_path (file_path f)) files /\
  st_sql_files st' = st_sql_files st + count_files is_sql_file files /\
  st_test_touched st' =
    st_test_touched st + count_files (fun f => is_test_path (file_path f)) files /\
  st_core_code_touched st' =
    st_core_code_touched st + count_files is_code_file files /\
  st_patch_missing st' =
    st_patch_missing st + count_files (fun f => negb (has_patch f)) files.
Proof.
  induction files as [| f files IH]; intros st.
  - unfold count_files, len. simpl. rewrite app_nil_r. repeat split; lia.
  - simpl fold_left. cbv zeta. specialize (IH (file_step st f)). cbv zeta in IH.
    destruct IH as (H1 & H2 & H3 & H4 & H5 & H6 & H7 & H8).
    rewrite H1, H2, H3, H4, H5, H6, H7, H8. rewrite !count_files_cons.
    rewrite file_step_score, file_step_signals, file_step_risky_paths,
            file_step_config_files, file_step_sql_files, file_step_test_touched,
            file_step_core_code_touched, file_step_patch_missing.
    rewrite file_score_zero_scan, file_risky_zero_scan, file_config_zero_scan,
            file_sql_zero_scan, file_test_zero_scan, file_code_zero_scan,
            file_missing_zero_scan.
    simpl map. simpl concat. simpl sumZ. rewrite <- app_assoc.
    destruct (has_patch f); simpl negb; repeat split; lia.
Qed.

Lemma post_scan_closed st :
  post_scan st =
  (st_score st +
   totals_bonus (st_risky_paths st) (st_config_files st) (st_sql_files st)
                (st_core_code_touched st) (st_test_touched st),
   st_signals st ++
   totals_signals (st_risky_paths st) (st_config_files st) (st_sql_files st)
                  (st_core_code_touched st) (st_test_touched st)).
Proof.
  unfold post_scan, totals_bonus, totals_signals.
  destruct (st_risky_paths st >? 0), (st_config_files st >? 0),
           (st_sql_files st >? 0),
           ((st_core_code_touched st >? 0) && (st_test_touched st =? 0));
    cbn [app]; rewrite <- ?app_assoc, ?app_nil_r; cbn [app]; f_equal; lia.
Qed.

Lemma pre_scan_counters files pr :
  st_risky_paths (pre_scan files pr) = 0 /\
  st_config_files (pre_scan files pr) = 0 /\
  st_sql_files (pre_scan files pr) = 0 /\
  st_test_touched (pre_scan files pr) = 0 /\
  st_core_code_touched (pre_scan files pr) = 0 /\
  st_patch_missing (pre_scan files pr) = 0.
Proof. unfold pre_scan. open_pairs. repeat split; reflexivity. Qed.

Lemma scan_counters files pr :
  st_risky_paths (scan files pr) =
    count_files (fun f => is_risky_path (file_path f)) files /\
  st_config_files (scan files pr) =
    count_files (fun f => is_config_path (file_path f)) files /\
  st_sql_files (scan files pr) = count_files is_sql_file files /\
  st_test_touched (scan files pr) =
    count_files (fun f => is_test_path (file_path f)) files /\
  st_core_code_touched (scan files pr) = count_files is_code_file files /\
  st_patch_missing (scan files pr) =
    count_files (fun f => negb (has_patch f)) files.
Proof.
  unfold scan.
  destruct (fold_file_step_closed files (pre_scan files pr))
    as (_ & _ & H3 & H4 & H5 & H6 & H7 & H8).
  destruct (pre_scan_counters files pr) as (P3 & P4 & P5 & P6 & P7 & P8).
  rewrite H3, H4, H5, H6, H7, H8, P3, P4, P5, P6, P7, P8.
  repeat split; lia.
Qed.

Lemma pre_scan_closed files pr :
  st_score (pre_scan files pr) = meta_score files pr /\
  st_signals (pre_scan files pr) = meta_signals files pr.
Proof.
  unfold pre_scan, meta_score, meta_signals, renames_of, count_files. cbv zeta.
  destruct (meta_additions pr + meta_deletions pr >? 800),
           (meta_additions pr + meta_deletions pr >? 300),
           (meta_changed_files files pr >? 40),
           (meta_changed_files files pr >? 15),
           (len (List.filter is_renamed files) >=? 5);
    cbn [st_score st_signals app]; split; try lia; reflexivity.
Qed.

Lemma sumZ_nonneg (l : list Z) : Forall (fun x => 0 <= x) l -> 0 <= sumZ l.
Proof. induction 1; simpl; lia. Qed.

Lemma file_score_bounds f : 0 <= file_score f <= 31.
Proof.
  unfold file_score.
  repeat match goal with
         | |- context [if ?b then _ else _] => destruct b
         end; lia.
Qed.

Lemma sumZ_file_scores_nonneg files : 0 <= sumZ (map file_score files).
Proof.
  apply sumZ_nonneg, List.Forall_forall. intros x Hx.
  apply in_map_iff in Hx as (f & <- & _). apply file_score_bounds.
Qed.

Lemma sumZ_member f files :
  f ∈ files -> file_score f <= sumZ (map file_score files).
Proof.
  induction files as [| g files IH]; intros Hf.
  - apply elem_of_nil in Hf. destruct Hf.
  - simpl. pose proof (sumZ_file_scores_nonneg files).
    pose proof (file_score_bounds g).
    apply elem_of_cons in Hf as [-> | Hf]; [lia |].
    specialize (IH Hf). lia.
Qed.

Lemma meta_score_bounds files pr : 0 <= meta_score files pr <= 60.
Proof.
  unfold meta_score. cbv zeta.
  repeat match goal with
         | |- context [if ?b then _ else _] => destruct b
         end; lia.
Qed.

Lemma totals_bonus_bounds risky config sql code test :
  0 <= totals_bonus risky config sql code test <= 68.
Proof.
  unfold totals_bonus.
  destruct (risky >? 0) eqn:E1, (config >? 0) eqn:E2, (sql >? 0) eqn:E3,
           ((code >? 0) && (test =? 0));
    rewrite ?Z.gtb_ltb in *;
    repeat match goal with
           | H : (_ <? _) = true |- _ => apply Z.ltb_lt in H
           | H : (_ <? _) = false |- _ => clear H
           end; lia.
Qed.

Lemma raw_score_closed files pr :
  raw_score files pr =
  meta_score files pr + sumZ (map file_score files) +
  totals_bonus (count_files (fun f => is_risky_path (file_path f)) files)
               (count_files (fun f => is_config_path (file_path f)) files)
               (count_files is_sql_file files)
               (count_files is_code_file files)
               (count_files (fun f => is_test_path (file_path f)) files).
Proof.
  unfold raw_score. rewrite post_scan_closed. cbn [fst].
  destruct (scan_counters files pr) as (H3 & H4 & H5 & H6 & H7 & _).
  rewrite H3, H4, H5, H6, H7. unfold scan.
  destruct (fold_file_step_closed files (pre_scan files pr)) as (H1 & _).
  rewrite H1. destruct (pre_scan_closed files pr) as (-> & _). reflexivity.
Qed.

Lemma raw_signals_closed files pr :
  raw_signals files pr =
  meta_signals files pr ++ concat (map file_signals files) ++
  totals_signals (count_files (fun f => is_risky_path (file_path f)) files)
                 (count_files (fun f => is_config_path (file_path f)) files)
                 (count_files is_sql_file files)
                 (count_files is_code_file files)
                 (count_files (fun f => is_test_path (file_path f)) files).
Proof.
  unfold raw_signals. rewrite post_scan_closed. cbn [snd].
  destruct (scan_counters files pr) as (H3 & H4 & H5 & H6 & H7 & _).
  rewrite H3, H4, H5, H6, H7. unfold scan.
  destruct (fold_file_step_closed files (pre_scan files pr)) as (_ & H2 & _).
  rewrite H2. destruct (pre_scan_closed files pr) as (_ & ->).
  rewrite <- app_assoc. reflexivity.
Qed.

(** The score before the clamp is the sum of three parts: what the
    metadata detectors add (diff size, number of files, renames), what the
    per-file detectors add for each file (resilience +4, security +8, SQL
    +10 on a non-empty patch; big edit +6; removed +3), and what the
    detectors on the totals add, where each total is the number of files
    of its kind. *)
Theorem score_is_sum_of_detectors :
  forall files pr,
    raw_score files pr =
    meta_score files pr + sumZ (map file_score files) +
    totals_bonus (count_files (fun f => is_risky_path (file_path f)) files)
                 (count_files (fun f => is_config_path (file_path f)) files)
                 (count_files is_sql_file files)
                 (count_files is_code_file files)
                 (count_files (fun f => is_test_path (file_path f)) files).
Proof. exact raw_score_closed. Qed.

(** The signals before the clean-up are, in this order, those of the
    metadata detectors, those of the per-file detectors file by file in
    the order of the files, and those of the detectors on the totals. *)
Theorem signals_are_in_detection_order :
  forall files pr,
    raw_signals files pr =
    meta_signals files pr ++ concat (map file_signals files) ++
    totals_signals (count_files (fun f => is_risky_path (file_path f)) files)
                   (count_files (fun f => is_config_path (file_path f)) files)
                   (count_files is_sql_file files)
                   (count_files is_code_file files)
                   (count_files (fun f => is_test_path (file_path f)) files) /\
    signals (compute_risk files pr) = first_occurrences (raw_signals files pr).
Proof.
  intros files pr. split; [apply raw_signals_closed |].
  rewrite signals_eq. apply dedup_loop_first_occurrences.
Qed.

(** The raw counters of the result count the files of each kind, so each
    lies between 0 and the number of file records. *)
Theorem counters_count_files :
  forall files pr,
    let r := compute_risk files pr in
    risky_paths r = count_files (fun f => is_risky_path (file_path f)) files /\
    config_files r = count_files (fun f => is_config_path (file_path f)) files /\
    sql_files r = count_files is_sql_file files /\
    test_touched r = count_files (fun f => is_test_path (file_path f)) files /\
    0 <= risky_paths r <= len files /\
    0 <= config_files r <= len files /\
    0 <= sql_files r <= len files /\
    0 <= test_touched r <= len files.
Proof.
  intros files pr r.
  destruct (scan_counters files pr) as (H3 & H4 & H5 & H6 & _).
  assert (E : risky_paths r = st_risky_paths (scan files pr) /\
              config_files r = st_config_files (scan files pr) /\
              sql_files r = st_sql_files (scan files pr) /\
              test_touched r = st_test_touched (scan files pr))
    by (unfold r, compute_risk; destruct (post_scan _); repeat split; reflexivity).
  destruct E as (-> & -> & -> & ->). rewrite H3, H4, H5, H6.
  repeat split; try reflexivity; apply count_files_bounds.
Qed.

(** No detector subtracts: the score before the clamp is never negative,
    so the lower clamp never acts and the score is the raw score capped at
    100. *)
Theorem score_is_raw_score_capped :
  forall files pr,
    0 <= raw_score files pr /\
    score_100 (compute_risk files pr) = Z.min 100 (raw_score files pr).
Proof.
  intros files pr.
  assert (H : 0 <= raw_score files pr).
  { rewrite raw_score_closed.
    pose proof (meta_score_bounds files pr).
    pose proof (sumZ_file_scores_nonneg files).
    pose proof (totals_bonus_bounds
                  (count_files (fun f => is_risky_path (file_path f)) files)
                  (count_files (fun f => is_config_path (file_path f)) files)
                  (count_files is_sql_file files)
                  (count_files is_code_file files)
                  (count_files (fun f => is_test_path (file_path f)) files)).
    lia. }
  split; [exact H |]. rewrite score_100_eq. lia.
Qed.

(** ** What a file of the change brings into the result *)

(** Every signal a per-file detector emits for a file of the change is
    among the signals of the result, and what the detectors add for that
    file is part of the score before the clamp. *)
Theorem file_detectors_are_reported :
  forall files pr f,
    f ∈ files ->
    file_signals f ⊆ signals (compute_risk files pr) /\
    file_score f <= raw_score files pr.
Proof.
  intros files pr f Hf. split.
  - intros s Hs. rewrite signals_eq, dedup_loop_first_occurrences.
    apply elem_of_first_occurrences. rewrite raw_signals_closed.
    apply elem_of_app. right. apply elem_of_app. left.
    apply list_elem_of_In, in_concat. exists (file_signals f).
    split; [apply in_map, list_elem_of_In, Hf | apply list_elem_of_In, Hs].
  - rewrite raw_score_closed.
    pose proof (meta_score_bounds files pr).
    pose proof (sumZ_member f files Hf).
    pose proof (totals_bonus_bounds
                  (count_files (fun f => is_risky_path (file_path f)) files)
                  (count_files (fun f => is_config_path (file_path f)) files)
                  (count_files is_sql_file files)
                  (count_files is_code_file files)
                  (count_files (fun f => is_test_path (file_path f)) files)).
    lia.
Qed.

(** A removed migration that drops a table: its two signals are reported
    and its 13 points are in the score. *)
Lemma drop_table_is_reported :
  drop_table_file ∈ [scenario_file; drop_table_file] /\
  file_signals drop_table_file =
    [ "Potentially risky SQL pattern hinted in db/001_init.sql.";
      "File removed: db/001_init.sql. Confirm no runtime dependency." ] /\
  file_score drop_table_file = 13 /\
  file_signals drop_table_file ⊆
    signals (compute_risk [scenario_file; drop_table_file] scenario_meta) /\
  file_score drop_table_file <=
    raw_score [scenario_file; drop_table_file] scenario_meta.
Proof.
  assert (Hin : drop_table_file ∈ [scenario_file; drop_table_file])
    by (right; left).
  split; [exact Hin |].
  split; [vm_compute; reflexivity |].
  split; [vm_compute; reflexivity |].
  apply (file_detectors_are_reported
           [scenario_file; drop_table_file] scenario_meta drop_table_file Hin).
Defined.

(** ** Level and ten-point score *)

(** The level is read off the score at the thresholds 70 and 40, and the
    ten-point score agrees with it: at least 7 at HIGH, from 4 to 7 at
    MEDIUM, at most 4 at LOW. *)
Theorem level_agrees_with_scores :
  forall files pr,
    let r := compute_risk files pr in
    match level r with
    | HIGH => 70 <= score_100 r /\ 7 <= score_10 r
    | MEDIUM => 40 <= score_100 r < 70 /\ 4 <= score_10 r <= 7
    | LOW => score_100 r < 40 /\ score_10 r <= 4
    end.
Proof.
  intros files pr r.
  assert (Hs : 0 <= score_100 r <= 100)
    by (unfold r; rewrite score_100_eq; lia).
  destruct (round_tenth_nearest (score_100 r) Hs) as (Hb & Hn & _).
  assert (H10 : score_10 r = round_tenth (score_100 r))
    by (unfold r; rewrite score_10_eq; fold r; lia).
  unfold r at 1. rewrite level_eq. fold r. cbv zeta.
  rewrite H10.
  destruct (score_100 r >=? 70) eqn:E1; rewrite Z.geb_leb in E1;
    [apply Z.leb_le in E1; lia | apply Z.leb_gt in E1].
  destruct (score_100 r >=? 40) eqn:E2; rewrite Z.geb_leb in E2;
    [apply Z.leb_le in E2 | apply Z.leb_gt in E2]; lia.
Qed.

(** ** The confidence in closed form *)

Lemma compute_confidence_bool cf a d t p :
  (match _compute_confidence cf a d t p with Low => true | _ => false end =
   (a + d >? 4000) || (cf >? 120) || ((t =? 0) && (a + d >? 1500)) ||
   (p >=? 30)) /\
  (match _compute_confidence cf a d t p with High => true | _ => false end =
   negb ((a + d >? 1500) || (cf >? 60) || (a + d >? 4000) || (cf >? 120) ||
         ((t =? 0) && (a + d >? 300)) || ((t =? 0) && (a + d >? 1500)) ||
         (p >=? 10) || (p >=? 30))).
Proof.
  unfold _compute_confidence. cbv zeta.
  generalize (a + d >? 1500), (cf >? 60), (a + d >? 4000), (cf >? 120),
             (t =? 0), (a + d >? 300), (p >=? 10), (p >=? 30).
  intros b1 b2 b3 b4 b5 b6 b7 b8.
  destruct b1, b2, b3, b4, b5, b6, b7, b8; split; reflexivity.
Qed.

(** The confidence is Low exactly when the change has more than 4000
    lines or more than 120 files, or more than 1500 lines and no test
    touched, or at least 30 files without a patch; it is High exactly when
    the change has at most 1500 lines and at most 60 files, fewer than 10
    files without a patch, and either a test touched or at most 300
    lines. *)
Theorem confidence_closed_form :
  forall cf a d t p : Z,
    (_compute_confidence cf a d t p = Low <->
     4000 < a + d \/ 120 < cf \/ (t = 0 /\ 1500 < a + d) \/ 30 <= p) /\
    (_compute_confidence cf a d t p = High <->
     a + d <= 1500 /\ cf <= 60 /\ p < 10 /\ (t <> 0 \/ a + d <= 300)).
Proof.
  intros cf a d t p.
  destruct (compute_confidence_bool cf a d t p) as (HL & HH).
  split.
  - transitivity (match _compute_confidence cf a d t p with
                  | Low => true | _ => false end = true).
    { destruct (_compute_confidence cf a d t p); split; congruence. }
    rewrite HL. lia.
  - transitivity (match _compute_confidence cf a d t p with
                  | High => true | _ => false end = true).
    { destruct (_compute_confidence cf a d t p); split; congruence. }
    rewrite HH. lia.
Qed.

(** ** The cap of the checklist *)

Lemma elem_of_by_decision (x : string) (l : list string) (b : bool) (P : Prop) :
  bool_decide (x ∈ l) = b -> (b = true <-> P) -> (x ∈ l <-> P).
Proof. intros <- H. rewrite <- H. symmetry. apply bool_decide_eq_true. Qed.

(** The checklist has six possible entries and a cap of five.  The entry
    that asks for a sign-off, the last one, is shown exactly when the
    level is HIGH and one of the first four entries is absent: at HIGH
    with a sensitive path, an SQL file, a configuration file and no test
    touched, the cap cuts it. *)
Theorem sign_off_entry_and_the_cap :
  forall (c s t rp : Z) (lv : Level),
    "Consider splitting PR or requiring explicit sign-off (risk concentrated)."
      ∈ _review_focus_from_facts c s t rp lv <->
    lv = HIGH /\ (rp = 0 \/ s = 0 \/ c = 0 \/ t <> 0).
Proof.
  intros c s t rp lv. unfold _review_focus_from_facts.
  destruct (rp =? 0) eqn:E1, (s =? 0) eqn:E2, (c =? 0) eqn:E3, (t =? 0) eqn:E4, lv;
    cbn [negb];
    (eapply elem_of_by_decision; [vm_compute; reflexivity |]);
    (split;
     [intros H; try discriminate H; (split; [reflexivity | lia])
     | intros [H1 H2]; try discriminate H1; try reflexivity; lia]).
Qed.

(** ** The order of the files, beyond the score *)

Lemma count_files_perm p files files' :
  Permutation files files' -> count_files p files = count_files p files'.
Proof.
  intros H. unfold count_files, len. f_equal. apply Permutation_length.
  induction H as [| x l l' _ IH | x y l | l l' l'' _ IH1 _ IH2]; simpl.
  - constructor.
  - destruct (p x); [apply perm_skip |]; exact IH.
  - destruct (p x), (p y); try reflexivity. apply perm_swap.
  - etransitivity; eassumption.
Qed.

Lemma meta_changed_files_perm files files' pr :
  Permutation files files' ->
  meta_changed_files files pr = meta_changed_files files' pr.
Proof.
  intros H. unfold meta_changed_files, len. rewrite (Permutation_length H).
  reflexivity.
Qed.

Lemma raw_score_perm files files' pr :
  Permutation files files' -> raw_score files pr = raw_score files' pr.
Proof.
  intros H. unfold raw_score, scan. apply post_scan_score_totals.
  apply fold_file_step_totals; [exact H |].
  rewrite (pre_scan_perm files files' pr H). reflexivity.
Qed.

Lemma raw_signals_perm files files' pr :
  Permutation files files' ->
  Permutation (raw_signals files pr) (raw_signals files' pr).
Proof.
  intros H. rewrite !raw_signals_closed.
  rewrite !(count_files_perm _ files files' H).
  assert (Hm : meta_signals files pr = meta_signals files' pr).
  { pose proof (pre_scan_closed files pr) as [_ <-].
    pose proof (pre_scan_closed files' pr) as [_ <-].
    rewrite (pre_scan_perm files files' pr H). reflexivity. }
  rewrite Hm. apply Permutation_app_head, Permutation_app_tail.
  clear Hm pr.
  induction H as [| x l l' _ IH | x y l | l l' l'' _ IH1 _ IH2]; simpl.
  - constructor.
  - apply Permutation_app_head, IH.
  - rewrite !app_assoc. apply Permutation_app_tail, Permutation_app_comm.
  - etransitivity; eassumption.
Qed.

(** The files in another order, with the same metadata, give the same
    confidence, the same counters, the same checklist and the same
    operational notes, and the same signals up to their order. *)
Theorem summary_is_order_independent :
  forall files files' pr,
    Permutation files files' ->
    let r := compute_risk files pr in
    let r' := compute_risk files' pr in
    confidence r = confidence r' /\
    changed_files r = changed_files r' /\
    config_files r = config_files r' /\
    sql_files r = sql_files r' /\
    test_touched r = test_touched r' /\
    risky_paths r = risky_paths r' /\
    review_focus r = review_focus r' /\
    operational_notes r = operational_notes r' /\
    Permutation (signals r) (signals r').
Proof.
  intros files files' pr H r r'.
  destruct (scan_counters files pr) as (H3 & H4 & H5 & H6 & H7 & H8).
  destruct (scan_counters files' pr) as (H3' & H4' & H5' & H6' & H7' & H8').
  assert (Hcf : changed_files r = changed_files r')
    by (unfold r, r'; rewrite !changed_files_eq; apply meta_changed_files_perm, H).
  assert (E : forall fs,
             risky_paths (compute_risk fs pr) = st_risky_paths (scan fs pr) /\
             config_files (compute_risk fs pr) = st_config_files (scan fs pr) /\
             sql_files (compute_risk fs pr) = st_sql_files (scan fs pr) /\
             test_touched (compute_risk fs pr) = st_test_touched (scan fs pr))
    by (intros fs; unfold compute_risk; destruct (post_scan _);
        repeat split; reflexivity).
  destruct (E files) as (R1 & R2 & R3 & R4).
  destruct (E files') as (R1' & R2' & R3' & R4'). clear E.
  fold r in R1, R2, R3, R4. fold r' in R1', R2', R3', R4'.
  assert (Hrp : risky_paths r = risky_paths r')
    by (rewrite R1, R1', H3, H3'; apply count_files_perm, H).
  assert (Hcg : config_files r = config_files r')
    by (rewrite R2, R2', H4, H4'; apply count_files_perm, H).
  assert (Hsq : sql_files r = sql_files r')
    by (rewrite R3, R3', H5, H5'; apply count_files_perm, H).
  assert (Htt : test_touched r = test_touched r')
    by (rewrite R4, R4', H6, H6'; apply count_files_perm, H).
  assert (Hlv : level r = level r').
  { unfold r, r'. rewrite !level_eq, !score_100_eq, (raw_score_perm _ _ pr H).
    reflexivity. }
  split.
  { unfold r, r'. rewrite !confidence_eq, H6, H6', H8, H8'.
    rewrite (meta_changed_files_perm _ _ pr H),
            !(count_files_perm _ files files' H).
    reflexivity. }
  split; [exact Hcf |]. split; [exact Hcg |]. split; [exact Hsq |].
  split; [exact Htt |]. split; [exact Hrp |].
  split.
  { unfold r, r'. rewrite !review_focus_eq. fold r r'.
    rewrite Hcg, Hsq, Htt, Hrp, Hlv. reflexivity. }
  split.
  { unfold r, r'. rewrite !operational_notes_eq. fold r r'.
    rewrite Hcg, Hsq. reflexivity. }
  unfold r, r'. rewrite !signals_eq, !dedup_loop_first_occurrences.
  apply NoDup_Permutation; try apply first_occurrences_NoDup.
  intros x. rewrite !elem_of_first_occurrences.
  rewrite (raw_signals_perm files files' pr H). reflexivity.
Qed.

(** The scenario file and the removed migration in either order. *)
Lemma summary_is_order_independent_example :
  Permutation [drop_table_file; scenario_file] [scenario_file; drop_table_file] /\
  let r := compute_risk [drop_table_file; scenario_file] scenario_meta in
  let r' := compute_risk [scenario_file; drop_table_file] scenario_meta in
  confidence r = confidence r' /\
  changed_files r = changed_files r' /\
  config_files r = config_files r' /\
  sql_files r = sql_files r' /\
  test_touched r = test_touched r' /\
  risky_paths r = risky_paths r' /\
  review_focus r = review_focus r' /\
  operational_notes r = operational_notes r' /\
  Permutation (signals r) (signals r').
Proof.
  split; [apply perm_swap |].
  apply (summary_is_order_independent
           [drop_table_file; scenario_file] [scenario_file; drop_table_file]
           scenario_meta).
  apply perm_swap.
Defined.

(** ** File extensions *)

Lemma alnum_to_end_step c t :
  t <> EmptyString -> t <> String "010"%char EmptyString ->
  alnum_to_end (String c t) =
  if is_alnum c then
    match alnum_to_end t with Some r => Some (String c r) | None => None end
  else None.
Proof.
  intros H1 H2. simpl. destruct (is_alnum c); [| reflexivity].
  destruct t as [| c' t']; [congruence |].
  destruct t' as [| c'' t''].
  - destruct c' as [[] [] [] [] [] [] [] []]; try reflexivity. congruence.
  - destruct c' as [[] [] [] [] [] [] [] []]; reflexivity.
Qed.

Lemma alnum_to_end_all e :
  e <> EmptyString -> all_chars is_alnum e = true -> alnum_to_end e = Some e.
Proof.
  induction e as [| c t IH]; intros Hne Hall; [congruence |].
  simpl in Hall. apply andb_true_iff in Hall as [Hc Ht].
  destruct t as [| c' t'].
  - simpl. rewrite Hc. reflexivity.
  - rewrite alnum_to_end_step.
    + rewrite Hc, IH; [reflexivity | congruence | exact Ht].
    + congruence.
    + intros E. injection E as -> ->. simpl in Ht. discriminate Ht.
Qed.

Lemma alnum_to_end_dot x e :
  e <> EmptyString -> alnum_to_end (x +:+ String "."%char e) = None.
Proof.
  intros He. induction x as [| c x IH]; [reflexivity |].
  change (String c x +:+ String "." e) with (String c (x +:+ String "." e)).
  rewrite alnum_to_end_step.
  - rewrite IH. destruct (is_alnum c); reflexivity.
  - destruct x; discriminate.
  - destruct x as [| c' x']; [discriminate |].
    destruct x'; simpl; [| discriminate].
    intros E. injection E as _ E. discriminate E.
Qed.

Lemma ext_search_dotted stem e :
  e <> EmptyString -> all_chars is_alnum e = true ->
  ext_search (stem +:+ String "."%char e) = Some (String "."%char e).
Proof.
  intros He Hall. induction stem as [| c stem IH].
  - simpl. rewrite alnum_to_end_all by assumption. reflexivity.
  - change (String c stem +:+ String "." e) with (String c (stem +:+ String "." e)).
    simpl ext_search. rewrite alnum_to_end_dot by assumption. rewrite IH.
    destruct (Ascii.eqb c "."); reflexivity.
Qed.

Lemma lower_char_dot : lower_char "."%char = "."%char.
Proof. reflexivity. Qed.

(** The extension of a name that ends in a dot and a non-empty
    alphanumeric suffix is the dot and the suffix in lower case, whatever
    stands before the dot. *)
Theorem ext_of_dotted_name :
  forall stem e : string,
    e <> EmptyString ->
    all_chars is_alnum e = true ->
    _ext (stem +:+ "." +:+ e) = "." +:+ lower e.
Proof.
  intros stem e He Hall. unfold _ext.
  change ("." +:+ e) with (String "."%char e).
  rewrite ext_search_dotted by assumption. reflexivity.
Qed.

Lemma ext_of_dotted_name_example :
  "GZ" <> EmptyString /\
  all_chars is_alnum "GZ" = true /\
  _ext ("src/pkg.v2/data.tar" +:+ "." +:+ "GZ") = "." +:+ lower "GZ".
Proof.
  split; [discriminate |]. split; [reflexivity |].
  apply (ext_of_dotted_name "src/pkg.v2/data.tar" "GZ"); [discriminate | reflexivity].
Defined.

Lemma alnum_to_end_sound s : forall r,
  alnum_to_end s = Some r ->
  r <> EmptyString /\ all_chars is_alnum r = true /\
  (s = r \/ s = r +:+ String "010"%char EmptyString).
Proof.
  induction s as [| c t IH]; intros r H; [discriminate |].
  destruct (string_dec t EmptyString) as [-> | Hne].
  - simpl in H. destruct (is_alnum c) eqn:Hc; [| discriminate].
    injection H as <-. simpl. rewrite Hc. repeat split; [discriminate | now left].
  - destruct (string_dec t (String "010"%char EmptyString)) as [-> | Hnl].
    + simpl in H. destruct (is_alnum c) eqn:Hc; [| discriminate].
      injection H as <-. simpl. rewrite Hc. repeat split; [discriminate | now right].
    + rewrite alnum_to_end_step in H by assumption.
      destruct (is_alnum c) eqn:Hc; [| discriminate].
      destruct (alnum_to_end t) as [r' |]; [| discriminate].
      injection H as <-. destruct (IH r' eq_refl) as (_ & Hall & Hs).
      simpl. rewrite Hc, Hall. repeat split; [discriminate |].
      destruct Hs as [-> | ->]; [now left | now right].
Qed.

Lemma ext_search_sound p : forall g,
  ext_search p = Some g ->
  exists stem r,
    g = String "."%char r /\ r <> EmptyString /\ all_chars is_alnum r = true /\
    (p = stem +:+ String "."%char r \/
     p = stem +:+ String "."%char r +:+ String "010"%char EmptyString).
Proof.
  induction p as [| c t IH]; intros g H; [discriminate |].
  simpl in H.
  assert (Hrec : ext_search t = Some g ->
                 exists stem r,
                   g = String "."%char r /\ r <> EmptyString /\
                   all_chars is_alnum r = true /\
                   (String c t = stem +:+ String "."%char r \/
                    String c t = stem +:+ String "."%char r +:+
                                 String "010"%char EmptyString)).
  { intros Ht. destruct (IH g Ht) as (stem & r & Hg & Hr & Hall & Hp).
    exists (String c stem), r. repeat split; try assumption.
    destruct Hp as [-> | ->]; [now left | now right]. }
  destruct (Ascii.eqb c ".") eqn:Ec; [| exact (Hrec H)].
  apply Ascii.eqb_eq in Ec. subst c.
  destruct (alnum_to_end t) as [r |] eqn:Et; [| exact (Hrec H)].
  injection H as <-. destruct (alnum_to_end_sound t r Et) as (Hr & Hall & Ht).
  exists EmptyString, r. repeat split; try assumption.
  destruct Ht as [-> | ->]; [now left | now right].
Qed.

(** The extension is empty, or it is a dot and the lower-case form of a
    non-empty alphanumeric suffix with which the path ends, a final line
    feed apart. *)
Theorem ext_is_a_lowered_suffix :
  forall path : string,
    _ext path = EmptyString \/
    exists stem r : string,
      r <> EmptyString /\
      all_chars is_alnum r = true /\
      (path = stem +:+ "." +:+ r \/
       path = stem +:+ "." +:+ r +:+ String "010"%char EmptyString) /\
      _ext path = "." +:+ lower r.
Proof.
  intros path. unfold _ext.
  destruct (ext_search path) as [g |] eqn:E; [right | now left].
  destruct (ext_search_sound path g E) as (stem & r & -> & Hr & Hall & Hp).
  exists stem, r. repeat split; assumption.
Qed.

(** ** Top-level directories *)

Lemma lstrip_no_slash s :
  all_chars (fun c => negb (is_slash c)) s = true -> lstrip "/" s = s.
Proof.
  destruct s as [| c t]; [reflexivity |]. simpl. unfold is_slash.
  destruct (Ascii.eqb c "/"); [discriminate | reflexivity].
Qed.

Lemma rstrip_no_slash s :
  all_chars (fun c => negb (is_slash c)) s = true -> rstrip "/" s = s.
Proof.
  induction s as [| c t IH]; [reflexivity |]. simpl. unfold is_slash at 1.
  intros H. apply andb_true_iff in H as [Hc Ht]. rewrite (IH Ht).
  destruct (Ascii.eqb c "/"); [discriminate | reflexivity].
Qed.

Lemma split_no_slash s :
  all_chars (fun c => negb (is_slash c)) s = true -> split "/" s = [s].
Proof.
  induction s as [| c t IH]; [reflexivity |]. simpl. unfold is_slash at 1.
  intros H. apply andb_true_iff in H as [Hc Ht]. rewrite (IH Ht).
  destruct (Ascii.eqb c "/"); [discriminate | reflexivity].
Qed.

Lemma split_dir d rest :
  all_chars (fun c => negb (is_slash c)) d = true ->
  split "/" (d +:+ String "/"%char rest) = d :: split "/" rest.
Proof.
  induction d as [| c t IH]; [reflexivity |]. simpl. unfold is_slash at 1.
  intros H. apply andb_true_iff in H as [Hc Ht]. rewrite (IH Ht).
  destruct (Ascii.eqb c "/"); [discriminate | reflexivity].
Qed.

Lemma split_not_nil sep s : split sep s <> [].
Proof.
  destruct s as [| c t]; simpl; [discriminate |].
  destruct (Ascii.eqb c sep); [discriminate |].
  destruct (split sep t); discriminate.
Qed.

Lemma rstrip_not_all_slashes s :
  all_chars is_slash s = false -> rstrip "/" s <> EmptyString.
Proof.
  induction s as [| c t IH]; [discriminate |]. simpl. unfold is_slash at 1.
  destruct (Ascii.eqb c "/"); simpl; [| discriminate].
  intros H. specialize (IH H).
  destruct (rstrip "/" t); [congruence | simpl; discriminate].
Qed.

Lemma rstrip_app a b :
  rstrip "/" b <> EmptyString -> rstrip "/" (a +:+ b) = a +:+ rstrip "/" b.
Proof.
  intros Hb. induction a as [| c t IH]; [reflexivity |].
  simpl. rewrite IH.
  destruct (t +:+ rstrip "/" b) eqn:E.
  - destruct t; [exfalso; apply Hb, E | discriminate E].
  - change (String c t +:+ rstrip "/" b) with (String c (t +:+ rstrip "/" b)).
    rewrite E. cbn [String.eqb]. rewrite andb_false_r. reflexivity.
Qed.

(** A name without a slash lies in the root, and so does such a name
    followed only by slashes; a path made of a directory name, a slash and
    anything but slashes lies in that directory. *)
Theorem top_level_dir_of_path :
  forall d rest : string,
    d <> EmptyString ->
    all_chars (fun c => negb (is_slash c)) d = true ->
    _top_level_dir d = "(root)" /\
    _top_level_dir (d +:+ "/" +:+ rest) =
      if all_chars is_slash rest then "(root)" else d.
Proof.
  intros d rest Hd Hns.
  assert (Hl : forall x, lstrip "/" (d +:+ x) = d +:+ x).
  { intros x. destruct d as [| c t]; [congruence |]. simpl in *.
    unfold is_slash in Hns at 1.
    destruct (Ascii.eqb c "/"); [discriminate | reflexivity]. }
  split.
  - unfold _top_level_dir, strip.
    rewrite lstrip_no_slash, rstrip_no_slash, split_no_slash by assumption.
    reflexivity.
  - destruct (all_chars is_slash rest) eqn:Hall.
    + unfold _top_level_dir, strip.
      change ("/" +:+ rest) with (String "/"%char rest). rewrite Hl.
      assert (Hr : rstrip "/" (d +:+ String "/"%char rest) = d).
      { clear Hl. induction d as [| c t IH].
        - congruence.
        - simpl in Hns. apply andb_true_iff in Hns as [Hc Ht].
          unfold is_slash in Hc. simpl.
          destruct t as [| c' t'].
          + simpl.
            assert (Hs : rstrip "/" rest = EmptyString).
            { clear -Hall. induction rest as [| x r IHr]; [reflexivity |].
              simpl in *. unfold is_slash in Hall at 1.
              destruct (Ascii.eqb x "/"); [| discriminate].
              rewrite (IHr Hall). reflexivity. }
            rewrite Hs. simpl.
            destruct (Ascii.eqb c "/"); [discriminate | reflexivity].
          + rewrite IH by (discriminate || assumption).
            destruct (Ascii.eqb c "/"); [discriminate | reflexivity]. }
      rewrite Hr, split_no_slash by assumption. reflexivity.
    + unfold _top_level_dir, strip.
      change ("/" +:+ rest) with (String "/"%char rest). rewrite Hl.
      pose proof (rstrip_not_all_slashes rest Hall) as Hr.
      assert (Hr' : rstrip "/" (String "/"%char rest) =
                    String "/"%char (rstrip "/" rest)).
      { simpl. destruct (rstrip "/" rest); [congruence | reflexivity]. }
      rewrite rstrip_app by (rewrite Hr'; discriminate).
      rewrite Hr', split_dir by assumption.
      pose proof (split_not_nil "/" (rstrip "/" rest)) as Hn.
      destruct (split "/" (rstrip "/" rest)) as [| h tl]; [congruence |].
      unfold len. simpl length.
      destruct (2 <=? Z.of_nat (S (S (length tl)))) eqn:E; [reflexivity |].
      apply Z.leb_gt in E. lia.
Qed.

Lemma top_level_dir_of_path_example :
  "src" <> EmptyString /\
  all_chars (fun c => negb (is_slash c)) "src" = true /\
  _top_level_dir "src" = "(root)" /\
  _top_level_dir ("src" +:+ "/" +:+ "app/risk.py") =
    if all_chars is_slash "app/risk.py" then "(root)" else "src".
Proof.
  split; [discriminate |]. split; [reflexivity |].
  apply (top_level_dir_of_path "src" "app/risk.py"); [discriminate | reflexivity].
Defined.

(** ** What the word patterns match *)

Lemma is_word_lower_char x : is_word (lower_char x) = is_word x.
Proof. destruct x as [[] [] [] [] [] [] [] []]; reflexivity. Qed.

Lemma lower_char_star x : lower_char x = "*"%char -> x = "*"%char.
Proof. destruct x as [[] [] [] [] [] [] [] []]; vm_compute; congruence. Qed.

Lemma last_char_app prev a b :
  last_char prev (a +:+ b) = last_char (last_char prev a) b.
Proof. revert prev. induction a as [| c t IH]; intros prev; simpl; auto. Qed.

Lemma lower_eq_word_after m w rest :
  w <> EmptyString -> lower m = lower w ->
  word_after (m +:+ rest) = word_after w.
Proof.
  intros Hw H. destruct w as [| c w']; [congruence |].
  destruct m as [| x m']; [discriminate |].
  simpl in *. injection H as Hc _.
  rewrite <- (is_word_lower_char x), Hc. apply is_word_lower_char.
Qed.

Lemma lower_eq_word_before m : forall w prev prev',
  w <> EmptyString -> lower m = lower w ->
  word_before (last_char prev m) = word_before (last_char prev' w).
Proof.
  induction m as [| x m' IH]; intros w prev prev' Hw H.
  - destruct w; [congruence | discriminate].
  - destruct w as [| c w']; [discriminate |].
    simpl in H. injection H as Hc Ht. simpl last_char.
    destruct w' as [| c' w''].
    + destruct m'; [| discriminate]. simpl.
      rewrite <- (is_word_lower_char x), Hc. apply is_word_lower_char.
    + apply IH; [discriminate | exact Ht].
Qed.

(** A literal matches a prefix that equals it up to case. *)
Lemma match_lit w : forall prev s k,
  match_re (lit w) prev s k = true <->
  exists m rest, s = m +:+ rest /\ lower m = lower w /\
                 k (last_char prev m) rest = true.
Proof.
  induction w as [| c w' IH]; intros prev s k.
  - simpl. split.
    + intros H. exists EmptyString, s. auto.
    + intros (m & rest & -> & Hm & Hk). destruct m; [exact Hk | discriminate].
  - simpl. split.
    + destruct s as [| x t]; [discriminate |].
      destruct (Ascii.eqb (lower_char x) (lower_char c)) eqn:E; [| discriminate].
      apply Ascii.eqb_eq in E. intros H. apply IH in H as (m & rest & -> & Hm & Hk).
      exists (String x m), rest. simpl. rewrite E, Hm. auto.
    + intros (m & rest & -> & Hm & Hk).
      destruct m as [| x m']; [discriminate |].
      simpl in *. injection Hm as Hc Hm. rewrite Hc, Ascii.eqb_refl.
      apply IH. exists m', rest. auto.
Qed.

(** [\b], a literal, [\b]: the literal up to case, with a change of word
    class on either side of it. *)
Lemma match_bounded_lit w prev s :
  w <> EmptyString ->
  match_re (Seq WordB (Seq (lit w) WordB)) prev s (fun _ _ => true) = true <->
  exists m rest, s = m +:+ rest /\ lower m = lower w /\
                 word_before prev = negb (word_after w) /\
                 word_after rest = negb (word_before (last_char None w)).
Proof.
  intros Hw. cbn [match_re]. rewrite andb_true_iff, match_lit. split.
  - intros (Hb & m & rest & -> & Hm & Hk). exists m, rest.
    rewrite (lower_eq_word_after m w rest Hw Hm) in Hb.
    rewrite (lower_eq_word_before m w prev None Hw Hm), andb_true_r in Hk.
    repeat split; try assumption.
    + destruct (word_before prev), (word_after w); simpl in *; congruence.
    + destruct (word_before (last_char None w)), (word_after rest);
        simpl in *; congruence.
  - intros (m & rest & -> & Hm & Hb & Ha). split.
    + rewrite (lower_eq_word_after m w rest Hw Hm), Hb.
      destruct (word_after w); reflexivity.
    + exists m, rest. repeat split; try assumption.
      rewrite (lower_eq_word_before m w prev None Hw Hm), Ha, andb_true_r.
      destruct (word_before (last_char None w)); reflexivity.
Qed.

Lemma match_bounded_alt r1 r2 prev s :
  match_re (Seq WordB (Seq (Alt r1 r2) WordB)) prev s (fun _ _ => true) =
  match_re (Seq WordB (Seq r1 WordB)) prev s (fun _ _ => true) ||
  match_re (Seq WordB (Seq r2 WordB)) prev s (fun _ _ => true).
Proof. cbn [match_re]. apply andb_orb_distrib_r. Qed.

(** [re.search] tries every position of the text. *)
Lemma search_from_iff r : forall s prev,
  search_from r prev s = true <->
  exists pre post, s = pre +:+ post /\
                   match_re r (last_char prev pre) post (fun _ _ => true) = true.
Proof.
  induction s as [| c t IH]; intros prev; simpl; rewrite orb_true_iff.
  - split.
    + intros [H | H]; [| discriminate]. exists EmptyString, EmptyString. auto.
    + intros (pre & post & E & H). left.
      destruct pre; [| discriminate]. destruct post; [exact H | discriminate].
  - rewrite IH. split.
    + intros [H | (pre & post & -> & H)].
      * exists EmptyString, (String c t). auto.
      * exists (String c pre), post. auto.
    + intros (pre & post & E & H). destruct pre as [| c' pre'].
      * left. simpl in E, H. rewrite E. exact H.
      * right. simpl in E. injection E as -> ->. exists pre', post. auto.
Qed.

(** [(?i)\bword\b] finds the word up to case between two places where no
    word character touches it. *)
Lemma search_whole_word w s :
  w <> EmptyString ->
  word_after w = true ->
  word_before (last_char None w) = true ->
  search (whole_word w) s = true <->
  exists pre m post,
    s = pre +:+ m +:+ post /\ lower m = lower w /\
    word_before (last_char None pre) = false /\ word_after post = false.
Proof.
  intros Hw Hf Hl. unfold search, whole_word. rewrite search_from_iff. split.
  - intros (pre & post & -> & H).
    apply (match_bounded_lit w _ _ Hw) in H as (m & rest & -> & Hm & Hb & Ha).
    rewrite Hf in Hb. rewrite Hl in Ha. exists pre, m, rest. auto.
  - intros (pre & m & post & -> & Hm & Hb & Ha). exists pre, (m +:+ post).
    split; [reflexivity |]. apply (match_bounded_lit w _ _ Hw).
    exists m, post. rewrite Hf, Hl. auto.
Qed.




(** ** Text fields that are missing, null or empty *)

Lemma file_step_normalize st f : file_step st (normalize_file f) = file_step st f.
Proof.
  destruct f as [fn fs fa fd fp].
  unfold file_step, file_adds, file_dels, file_path, file_status, normalize_file;
    cbn [f_filename f_status f_additions f_deletions f_patch].
  assert (Hn : or_str (get (text_when_missing fn) (Some EmptyString)) EmptyString =
               or_str (get fn (Some EmptyString)) EmptyString)
    by (destruct fn; reflexivity).
  assert (Hs : or_str (get (text_when_missing fs) (Some EmptyString)) EmptyString =
               or_str (get fs (Some EmptyString)) EmptyString)
    by (destruct fs; reflexivity).
  rewrite Hn, Hs. clear Hn Hs.
  destruct fp as [| | p]; try reflexivity.
  cbn [patch_when_empty get]. destruct (String.eqb p EmptyString) eqn:E.
  - cbn [get truthy_str]. rewrite E. reflexivity.
  - reflexivity.
Qed.

Lemma fold_file_step_normalize files st :
  fold_left file_step (map normalize_file files) st = fold_left file_step files st.
Proof.
  revert st. induction files as [| f files IH]; intros st; simpl.
  - reflexivity.
  - rewrite file_step_normalize. apply IH.
Qed.

Lemma renamed_normalize files :
  List.filter is_renamed (map normalize_file files) =
  map normalize_file (List.filter is_renamed files).
Proof.
  induction files as [| f files IH]; simpl; [reflexivity |].
  replace (is_renamed (normalize_file f)) with (is_renamed f)
    by (destruct f as [fn [| | s] fa fd fp]; reflexivity).
  destruct (is_renamed f); simpl; rewrite IH; reflexivity.
Qed.

Lemma pre_scan_normalize files pr :
  pre_scan (map normalize_file files) pr = pre_scan files pr.
Proof.
  unfold pre_scan, meta_changed_files, len.
  rewrite renamed_normalize, !length_map. reflexivity.
Qed.

(** A missing, null or empty file name or status is read as the empty
    text, and a null or empty patch as a missing one: the result is that
    of the input in which every file record has an explicit name and
    status and carries a patch only when it is a non-empty text. *)
Theorem missing_text_is_empty :
  forall files pr,
    compute_risk (map normalize_file files) pr = compute_risk files pr.
Proof.
  intros files pr. unfold compute_risk, scan, meta_changed_files, len.
  rewrite pre_scan_normalize, fold_file_step_normalize, length_map.
  reflexivity.
Qed.

(** ** Directory and extension counts *)

Lemma incr_keys k c :
  map fst (incr k c) = if bool_decide (k ∈ map fst c) then map fst c
                       else map fst c ++ [k].
Proof.
  induction c as [| [k' n] rest IH]; [reflexivity |].
  simpl. destruct (String.eqb k k') eqn:E.
  - apply String.eqb_eq in E. subst k'.
    rewrite bool_decide_eq_true_2 by left. reflexivity.
  - simpl. rewrite IH. apply String.eqb_neq in E.
    destruct (bool_decide (k ∈ map fst rest)) eqn:D.
    + apply bool_decide_eq_true in D.
      rewrite bool_decide_eq_true_2 by (right; exact D). reflexivity.
    + apply bool_decide_eq_false in D.
      rewrite bool_decide_eq_false_2; [reflexivity |].
      intros H. apply elem_of_cons in H as [H | H]; [congruence | exact (D H)].
Qed.

Lemma incr_NoDup k c : NoDup (map fst c) -> NoDup (map fst (incr k c)).
Proof.
  intros H. rewrite incr_keys.
  destruct (bool_decide (k ∈ map fst c)) eqn:D; [exact H |].
  apply bool_decide_eq_false in D.
  apply NoDup_app. split; [exact H |]. split; [| apply NoDup_singleton].
  intros x Hx Hk. apply list_elem_of_singleton in Hk. subst x. exact (D Hx).
Qed.

Lemma incr_sum k c : sumZ (map snd (incr k c)) = sumZ (map snd c) + 1.
Proof.
  induction c as [| [k' n] rest IH]; [reflexivity |].
  simpl. destruct (String.eqb k k'); simpl; lia.
Qed.

Lemma incr_positive k c :
  Forall (fun kv => 1 <= snd kv) c -> Forall (fun kv => 1 <= snd kv) (incr k c).
Proof.
  induction 1 as [| [k' n] rest Hn Hrest IH]; simpl.
  - repeat constructor. simpl. lia.
  - destruct (String.eqb k k'); constructor; simpl in *; try assumption; lia.
Qed.

Lemma file_step_counters st f :
  st_top_dirs (file_step st f) =
    incr (_top_level_dir (file_path f)) (st_top_dirs st) /\
  st_ext_counts (file_step st f) =
    incr (or_str (Some (_ext (file_path f))) "(none)") (st_ext_counts st).
Proof.
  unfold file_step.
  repeat (match goal with
          | |- context [match ?X with pair _ _ => _ end] => destruct X
          end; cbn [st_top_dirs st_ext_counts]).
  split; reflexivity.
Qed.

Lemma fold_file_step_counters files : forall st n m,
  counts_files n (st_top_dirs st) -> counts_files m (st_ext_counts st) ->
  counts_files (n + len files) (st_top_dirs (fold_left file_step files st)) /\
  counts_files (m + len files) (st_ext_counts (fold_left file_step files st)).
Proof.
  induction files as [| f files IH]; intros st n m Hn Hm.
  - unfold len. simpl. rewrite !Z.add_0_r. auto.
  - simpl fold_left.
    replace (n + len (f :: files)) with ((n + 1) + len files)
      by (unfold len; simpl length; lia).
    replace (m + len (f :: files)) with ((m + 1) + len files)
      by (unfold len; simpl length; lia).
    destruct (file_step_counters st f) as [Ht He].
    destruct Hn as (N1 & N2 & N3). destruct Hm as (M1 & M2 & M3).
    apply IH.
    + rewrite Ht. repeat split;
        [apply incr_NoDup, N1 | apply incr_positive, N2 | rewrite incr_sum; lia].
    + rewrite He. repeat split;
        [apply incr_NoDup, M1 | apply incr_positive, M2 | rewrite incr_sum; lia].
Qed.

(** The two counters of the scan, by top-level directory and by
    extension, each hold distinct keys with counts of at least one that
    add up to the number of file records. *)
Theorem scan_counts_every_file :
  forall files pr,
    counts_files (len files) (st_top_dirs (scan files pr)) /\
    counts_files (len files) (st_ext_counts (scan files pr)).
Proof.
  intros files pr. unfold scan.
  assert (H0 : st_top_dirs (pre_scan files pr) = [] /\
               st_ext_counts (pre_scan files pr) = []).
  { unfold pre_scan.
    repeat (match goal with
            | |- context [match ?X with pair _ _ => _ end] => destruct X
            end; cbn [st_top_dirs st_ext_counts]).
    split; reflexivity. }
  destruct H0 as [Ht He].
  apply (fold_file_step_counters files (pre_scan files pr) 0 0).
  - rewrite Ht. repeat split; constructor.
  - rewrite He. repeat split; constructor.
Qed.

(** ** The cap of the impact map *)

(** The impact map holds at most four directory entries and four
    conditional ones, so its cap of eight never cuts anything. *)
Theorem impact_cap_is_idle :
  forall files pr,
    len (impact_entries (scan files pr)) <= 8 /\
    impact_map (compute_risk files pr) = impact_entries (scan files pr).
Proof.
  intros files pr.
  assert (H : (length (impact_entries (scan files pr)) <= 8)%nat).
  { unfold impact_entries, most_common.
    generalize (sorted_desc snd (st_top_dirs (scan files pr))). intros l.
    assert (Hm : (length (map (fun '(d, n) => fmt [d; "/ (files: "; of_int n; ")"])
                              (take 4 l)) <= 4)%nat)
      by (rewrite length_map, length_take; lia).
    revert Hm.
    generalize (map (fun '(d, n) => fmt [d; "/ (files: "; of_int n; ")"]) (take 4 l)).
    intros e He.
    repeat match goal with
           | |- context [if ?b then _ else _] => destruct b
           end;
      rewrite ?length_app; simpl; lia. }
  split; [unfold len; lia |].
  rewrite impact_map_eq. apply take_ge. exact H.
Qed.

(** ** Loading the settings *)

Module ConfigFacts.
Import Config.

Lemma lstrip_ws_blank s : lstrip_ws s = EmptyString <-> all_chars is_space s = true.
Proof.
  induction s as [| c t IH]; simpl; [tauto |].
  destruct (is_space c); simpl; [exact IH |]. split; discriminate.
Qed.

Lemma rstrip_ws_blank s : rstrip_ws s = EmptyString <-> all_chars is_space s = true.
Proof.
  induction s as [| c t IH]; simpl; [tauto |].
  destruct (is_space c); simpl.
  - destruct (rstrip_ws t) eqn:E; simpl.
    + split; [intros _; apply IH; reflexivity | reflexivity].
    + split; [discriminate |]. intros H. apply IH in H. discriminate H.
  - split; discriminate.
Qed.

Lemma lstrip_ws_split s :
  exists l, s = l +:+ lstrip_ws s /\ all_chars is_space l = true.
Proof.
  induction s as [| c t (l & Hl & Hs)]; simpl.
  - exists EmptyString. auto.
  - destruct (is_space c) eqn:E.
    + exists (String c l). split; [exact (f_equal (String c) Hl) |].
      simpl. rewrite E. exact Hs.
    + exists EmptyString. auto.
Qed.

Lemma rstrip_ws_split s :
  exists r, s = rstrip_ws s +:+ r /\ all_chars is_space r = true.
Proof.
  induction s as [| c t (r & Hr & Hs)]; simpl.
  - exists EmptyString. auto.
  - destruct (is_space c && String.eqb (rstrip_ws t) EmptyString) eqn:E.
    + apply andb_true_iff in E as [Ec Et]. apply String.eqb_eq in Et.
      exists (String c t). simpl. rewrite Ec. split; [reflexivity |].
      apply rstrip_ws_blank, Et.
    + exists r. split; [exact (f_equal (String c) Hr) | exact Hs].
Qed.

Lemma lstrip_ws_start s : starts_with_space (lstrip_ws s) = false.
Proof.
  induction s as [| c t IH]; simpl; [reflexivity |].
  destruct (is_space c) eqn:E; [exact IH | simpl; exact E].
Qed.

Lemma rstrip_ws_start s :
  starts_with_space s = false -> starts_with_space (rstrip_ws s) = false.
Proof.
  destruct s as [| c t]; simpl; [reflexivity |].
  intros H. rewrite H. simpl. exact H.
Qed.

Lemma rstrip_ws_last s : forall prev,
  match last_char prev (rstrip_ws s) with
  | Some c => is_space c
  | None => false
  end =
  if String.eqb (rstrip_ws s) EmptyString
  then match prev with Some c => is_space c | None => false end
  else false.
Proof.
  induction s as [| c t IH]; intros prev; [reflexivity |].
  cbn [rstrip_ws]. cbv zeta.
  destruct (String.eqb (rstrip_ws t) EmptyString) eqn:Et.
  - destruct (is_space c) eqn:Ec; cbn [andb]; [reflexivity |].
    cbn [last_char String.eqb]. rewrite IH, ?Et. exact Ec.
  - rewrite andb_false_r. cbn [last_char String.eqb]. rewrite IH, ?Et. reflexivity.
Qed.

Lemma rstrip_ws_end s : ends_with_space (rstrip_ws s) = false.
Proof.
  unfold ends_with_space. rewrite rstrip_ws_last.
  destruct (String.eqb (rstrip_ws s) EmptyString); reflexivity.
Qed.

Lemma strip_ws_blank s : strip_ws s = EmptyString <-> all_chars is_space s = true.
Proof.
  unfold strip_ws. rewrite rstrip_ws_blank.
  destruct (lstrip_ws_split s) as (l & Hl & Hs).
  split.
  - intros H. rewrite Hl. clear Hl. induction l as [| c l IH]; [exact H |].
    simpl in *. apply andb_true_iff in Hs as [-> Hs]. apply IH, Hs.
  - intros H. apply lstrip_ws_blank in H. rewrite H. reflexivity.
Qed.

Lemma strip_ws_core s :
  exists l r,
    s = l +:+ strip_ws s +:+ r /\
    all_chars is_space l = true /\ all_chars is_space r = true /\
    starts_with_space (strip_ws s) = false /\
    ends_with_space (strip_ws s) = false.
Proof.
  unfold strip_ws.
  destruct (lstrip_ws_split s) as (l & Hl & Hls).
  destruct (rstrip_ws_split (lstrip_ws s)) as (r & Hr & Hrs).
  exists l, r. split; [rewrite <- Hr; exact Hl |].
  repeat split; try assumption.
  - apply rstrip_ws_start, lstrip_ws_start.
  - apply rstrip_ws_end.
Qed.




End ConfigFacts.

(** ** Fetching the file list page by page *)

Module GitHubFacts.
Import GitHub.

Section Pages.
Context {A : Type}.

Lemma take_add_drop (n m : nat) (l : list A) :
  take (n + m) l = take n l ++ take m (drop n l).
Proof.
  revert l. induction n as [| n IH]; intros l; [reflexivity |].
  destruct l as [| x l]; simpl.
  - rewrite take_nil. reflexivity.
  - rewrite IH. reflexivity.
Qed.

(** After [k] full pages the loop holds the first [100 * k] entries and
    asks for page [k + 1]. *)
Lemma list_pr_files_loop_paginate (all : list A) : forall fuel k,
  (100 * k <= length all)%nat ->
  (length all < 100 * (k + fuel))%nat ->
  list_pr_files_loop fuel (paginate all) (Z.of_nat k + 1) (take (100 * k) all) =
  Returned all.
Proof.
  induction fuel as [| fuel IH]; intros k Hk Hf; [lia |].
  cbn [list_pr_files_loop]. unfold paginate at 1.
  replace (Z.to_nat (100 * (Z.of_nat k + 1 - 1))) with (100 * k)%nat by lia.
  destruct (take 100 (drop (100 * k) all)) as [| x batch] eqn:E.
  - f_equal. apply take_ge.
    assert (Hl : length (take 100 (drop (100 * k) all)) = 0%nat)
      by (rewrite E; reflexivity).
    rewrite length_take, length_drop in Hl. lia.
  - rewrite <- E. clear x batch E.
    rewrite <- take_add_drop.
    assert (Hl : length (take 100 (drop (100 * k) all)) =
                 Nat.min 100 (length all - 100 * k))
      by (rewrite length_take, length_drop; reflexivity).
    unfold len. rewrite Hl.
    destruct (Z.of_nat (Nat.min 100 (length all - 100 * k)) <? 100) eqn:E;
      [apply Z.ltb_lt in E | apply Z.ltb_ge in E].
    + f_equal. apply take_ge. lia.
    + replace (Z.of_nat k + 1 + 1) with (Z.of_nat (S k) + 1) by lia.
      replace (100 * k + 100)%nat with (100 * S k)%nat by lia.
      apply IH; lia.
Qed.

(** From a host that serves the list in pages of 100, the call returns
    the whole list, in order and without a repeat, as soon as the fuel
    covers one request more than the number of full pages. *)
Theorem list_pr_files_returns_all :
  forall (all : list A) (fuel : nat),
    (length all < 100 * fuel)%nat ->
    list_pr_files fuel (paginate all) = Returned all.
Proof.
  intros all fuel H. unfold list_pr_files.
  apply (list_pr_files_loop_paginate all fuel 0); simpl; lia.
Qed.

Lemma list_pr_files_loop_full_pages (get : Z -> response A) :
  (forall page, 1 <= page ->
                exists batch, get page = Json batch /\ 100 <= len batch) ->
  forall fuel page files,
    1 <= page -> list_pr_files_loop fuel get page files = OutOfFuel.
Proof.
  intros Hget. induction fuel as [| fuel IH]; intros page files Hp; [reflexivity |].
  cbn [list_pr_files_loop].
  destruct (Hget page Hp) as (batch & -> & Hb).
  destruct batch as [| x batch]; [unfold len in Hb; simpl in Hb; lia |].
  destruct (len (x :: batch) <? 100) eqn:E; [apply Z.ltb_lt in E; lia |].
  apply IH. lia.
Qed.

(** The loop stops only on an empty page or on a page of fewer than 100
    entries: from a host every page of which holds 100 entries or more,
    the call never returns, whatever the fuel. *)
Theorem list_pr_files_needs_a_short_page :
  forall get : Z -> response A,
    (forall page, 1 <= page ->
                  exists batch, get page = Json batch /\ 100 <= len batch) ->
    forall fuel, list_pr_files fuel get = OutOfFuel.
Proof.
  intros get Hget fuel. unfold list_pr_files.
  apply list_pr_files_loop_full_pages; [exact Hget | lia].
Qed.

(** An error status on a page that is reached ends the call with that
    error, and the entries of the pages before it are not returned. *)
Theorem list_pr_files_raises :
  forall (all : list A) (k : nat) (status : Z) (get : Z -> response A) (fuel : nat),
    (100 * k <= length all)%nat ->
    (forall page, 1 <= page <= Z.of_nat k -> get page = paginate all page) ->
    get (Z.of_nat k + 1) = HttpError status ->
    (k < fuel)%nat ->
    list_pr_files fuel get = Raised status.
Proof.
  intros all k status get fuel Hk Hget Herr Hf. unfold list_pr_files.
  assert (H : forall j fuel',
             (j <= k)%nat -> (k - j < fuel')%nat ->
             list_pr_files_loop fuel' get (Z.of_nat j + 1) (take (100 * j) all) =
             Raised status).
  { intros j fuel'. revert j. induction fuel' as [| fuel' IH]; intros j Hj Hf'; [lia |].
    cbn [list_pr_files_loop].
    destruct (Nat.eq_dec j k) as [-> | Hne]; [rewrite Herr; reflexivity |].
    rewrite Hget by lia. unfold paginate.
    replace (Z.to_nat (100 * (Z.of_nat j + 1 - 1))) with (100 * j)%nat by lia.
    assert (Hl : length (take 100 (drop (100 * j) all)) = 100%nat)
      by (rewrite length_take, length_drop; lia).
    destruct (take 100 (drop (100 * j) all)) as [| x batch] eqn:E;
      [discriminate Hl |].
    rewrite <- E in Hl |- *. rewrite <- take_add_drop. unfold len. rewrite Hl.
    change (Z.of_nat 100 <? 100) with false. cbv iota.
    replace (Z.of_nat j + 1 + 1) with (Z.of_nat (S j) + 1) by lia.
    replace (100 * j + 100)%nat with (100 * S j)%nat by lia.
    apply IH; lia. }
  apply (H 0%nat fuel); lia.
Qed.

End Pages.

(** Two hundred and one entries come back with three requests' fuel. *)
Lemma list_pr_files_returns_all_example :
  (length (seq 0 201) < 100 * 3)%nat /\
  list_pr_files 3 (paginate (seq 0 201)) = Returned (seq 0 201).
Proof.
  split; [vm_compute; lia |].
  apply (list_pr_files_returns_all (seq 0 201) 3). vm_compute. lia.
Defined.

(** A host that answers every page with the same hundred entries. *)
Lemma list_pr_files_needs_a_short_page_example :
  (forall page, 1 <= page ->
                exists batch, (fun _ : Z => Json (seq 0 100)) page = Json batch /\
                              100 <= len batch) /\
  forall fuel, list_pr_files fuel (fun _ : Z => Json (seq 0 100)) = OutOfFuel.
Proof.
  assert (H : forall page, 1 <= page ->
                exists batch, (fun _ : Z => Json (seq 0 100)) page = Json batch /\
                              100 <= len batch)
    by (intros page _; exists (seq 0 100); split; [reflexivity | vm_compute; discriminate]).
  split; [exact H |].
  apply (list_pr_files_needs_a_short_page (fun _ : Z => Json (seq 0 100)) H).
Defined.

(** The second page of a list of 150 entries fails with status 502. *)
Lemma list_pr_files_raises_example :
  (100 * 1 <= length (seq 0 150))%nat /\
  (forall page, 1 <= page <= Z.of_nat 1 ->
     (fun p : Z => if p =? 2 then HttpError 502 else paginate (seq 0 150) p) page =
     paginate (seq 0 150) page) /\
  (fun p : Z => if p =? 2 then HttpError 502 else paginate (seq 0 150) p)
    (Z.of_nat 1 + 1) = HttpError 502 /\
  (1 < 5)%nat /\
  list_pr_files 5
    (fun p : Z => if p =? 2 then HttpError 502 else paginate (seq 0 150) p) =
  Raised 502.
Proof.
  assert (H1 : (100 * 1 <= length (seq 0 150))%nat) by (vm_compute; lia).
  assert (H2 : forall page, 1 <= page <= Z.of_nat 1 ->
     (fun p : Z => if p =? 2 then HttpError 502 else paginate (seq 0 150) p) page =
     paginate (seq 0 150) page).
  { intros page Hp. cbv beta. destruct (page =? 2) eqn:E; [| reflexivity].
    apply Z.eqb_eq in E. lia. }
  assert (H3 : (fun p : Z => if p =? 2 then HttpError 502 else paginate (seq 0 150) p)
                 (Z.of_nat 1 + 1) = HttpError 502) by reflexivity.
  assert (H4 : (1 < 5)%nat) by lia.
  repeat (split; [assumption |]).
  apply (list_pr_files_raises (seq 0 150) 1 502 _ 5 H1 H2 H3 H4).
Defined.

End GitHubFacts.
